(** * StitchKit installer: a shallow embedding of [install_stitchkit.py]

    The installer is a sequential, interactive Python script.  It is modelled
    as a state-and-exception monad over one record that holds the fields of
    the [StitchKitInstaller] object, the home directory as a tree of finite
    maps, what the user will type, and the text the process has printed.

    Strings are byte strings: a Python [str] is represented by its UTF-8
    encoding.  Substring tests with ASCII needles and the order of code
    points are the same on both representations. *)

From Stdlib Require Import Ascii.
From stdpp Require Import gmap strings list fin_maps sorting.

(** ** Text operations used by the script *)

Module Text.

(** [needle in hay] of Python, on byte strings. *)
Fixpoint contains (needle hay : string) : bool :=
  String.prefix needle hay ||
  match hay with
  | EmptyString => false
  | String _ rest => contains needle rest
  end.

(** [hay] has [needle] as a contiguous block. *)
Definition occurs (needle hay : string) : Prop :=
  ∃ before after, hay = before +:+ needle +:+ after.

(** [c.lower()] on one byte: only [A]..[Z] change. *)
Definition lower_ascii (c : ascii) : ascii :=
  let n := N_of_ascii c in
  if ((65 <=? n) && (n <=? 90))%N then ascii_of_N (n + 32) else c.

(** [s.lower()]. Bytes outside ASCII are kept: no character of Unicode
    other than [Y] lowers to [y], so the answers that compare equal to
    ['y'] are the same. *)
Fixpoint lower (s : string) : string :=
  match s with
  | EmptyString => EmptyString
  | String c rest => String (lower_ascii c) (lower rest)
  end.

(** The text made of [lines], each one ended by a newline. *)
Definition unlines (lines : list string) : string :=
  foldr (λ l acc, l +:+ String "010"%char acc) EmptyString lines.

(** [s * n]. *)
Fixpoint times (n : nat) (s : string) : string :=
  match n with
  | 0 => EmptyString
  | S n' => s +:+ times n' s
  end.

(** [a < b] on tuples of numbers. *)
Fixpoint tuple_ltb (a b : list nat) : bool :=
  match a, b with
  | _, [] => false
  | [], _ :: _ => true
  | x :: a', y :: b' => (x <? y) || ((x =? y) && tuple_ltb a' b')
  end.

Global Arguments times : simpl never.
Global Arguments unlines : simpl never.

Definition dq : string := String "034"%char EmptyString.
Definition nl : string := String "010"%char EmptyString.
Definition esc : string := String "027"%char EmptyString.

End Text.

(** ** The credential check on the text of the configuration file *)

Definition CANVAS_PLACEHOLDER : string := "your_canvas_api_key_here".
Definition HONORLOCK_KEY_PLACEHOLDER : string := "your_honorlock_consumer_key_here".
Definition HONORLOCK_SECRET_PLACEHOLDER : string := "your_honorlock_shared_secret_here".

(** The body of the [try] of [check_env_credentials], after [content] has
    been read. *)
Definition credentials_in (content : string) : bool :=
  let has_canvas :=
    Text.contains "CANVAS_API_KEY=" content
    && negb (Text.contains CANVAS_PLACEHOLDER content) in
  let has_honorlock_key :=
    Text.contains "HONORLOCK_CONSUMER_KEY=" content
    && negb (Text.contains HONORLOCK_KEY_PLACEHOLDER content) in
  let has_honorlock_secret :=
    Text.contains "HONORLOCK_SHARED_SECRET=" content
    && negb (Text.contains HONORLOCK_SECRET_PLACEHOLDER content) in
  has_canvas && has_honorlock_key && has_honorlock_secret.

(** The three required fields with their placeholder literals. *)
Definition required_fields : list (string * string) :=
  [ ("CANVAS_API_KEY", CANVAS_PLACEHOLDER);
    ("HONORLOCK_CONSUMER_KEY", HONORLOCK_KEY_PLACEHOLDER);
    ("HONORLOCK_SHARED_SECRET", HONORLOCK_SECRET_PLACEHOLDER) ].

(** What the specification asks of one field. *)
Definition field_filled (content : string) (field : string * string) : Prop :=
  Text.occurs (field.1 +:+ "=") content ∧ ¬ Text.occurs field.2 content.

(** ** Exceptions and outcomes *)

(** The exception classes the script can meet.  All but
    [KeyboardInterrupt] are subclasses of Python's [Exception].  [OSError]
    stands for the subclasses that are not listed, [PermissionError] among
    them. *)
Inductive exn :=
  | OSError
  | FileNotFoundError
  | FileExistsError
  | NotADirectoryError
  | IsADirectoryError
  | ShutilError
  | UnicodeDecodeError
  | EOFError
  | IndexError
  | KeyboardInterrupt.

Global Instance exn_eq_dec : EqDecision exn.
Proof. solve_decision. Defined.

(** [isinstance(e, Exception)]: what [except Exception] catches. *)
Definition is_Exception (e : exn) : bool :=
  match e with KeyboardInterrupt => false | _ => true end.

(** What [except FileNotFoundError] catches. *)
Definition is_FileNotFoundError (e : exn) : bool :=
  match e with FileNotFoundError => true | _ => false end.

(** [str(e)], kept to the name of the class. *)
Definition exn_text (e : exn) : string :=
  match e with
  | OSError => "OSError"
  | FileNotFoundError => "FileNotFoundError"
  | FileExistsError => "FileExistsError"
  | NotADirectoryError => "NotADirectoryError"
  | IsADirectoryError => "IsADirectoryError"
  | ShutilError => "shutil.Error"
  | UnicodeDecodeError => "UnicodeDecodeError"
  | EOFError => "EOFError"
  | IndexError => "IndexError"
  | KeyboardInterrupt => "KeyboardInterrupt"
  end.

Inductive outcome (A : Type) :=
  | Return (a : A)
  | Raise (e : exn).
Global Arguments Return {A} a.
Global Arguments Raise {A} e.

(** ** The machine *)

(** A file with its text, or a directory with its entries. *)
Inductive node :=
  | File (content : string)
  | Dir (entries : gmap string node).

(** A path below the home directory, as its parts. *)
Abbreviation path := (list string).

(** What the user does when the script waits at a prompt. *)
Inductive key :=
  | Enter (line : string)
  | CtrlC.

(** What the process writes and starts, in order. *)
Inductive event :=
  | Echo (text : string)
  | Input (prompt : string)
  | Run (cmd : list string)
  | Sleep (seconds : nat)
  | Chdir (dir : string).

Global Instance event_eq_dec : EqDecision event.
Proof. solve_decision. Defined.

(** What the script reads from its process and from its collaborators. *)
Record host := Host {
  home_path : string;            (* str(Path.home()) *)
  version_info : list nat;       (* sys.version_info: major, minor, micro *)
  version : string;              (* sys.version *)
  executable : string;           (* sys.executable *)
  argv : list string;            (* sys.argv *)
  SHELL : option string;         (* os.environ.get('SHELL') *)
  now : string;                  (* datetime.now().strftime("%Y%m%d-%H%M%S") *)
  pip_returncode : nat;          (* of pip install -r requirements.txt *)
  pip_stderr : string;
  editor : option string → option string
                                 (* the text of .env before and after the
                                    user's session in nano or vi *)
}.

Record state := State {
  (* the StitchKitInstaller object; install_dir is Path.home() / "StitchKit" *)
  verbose : bool;
  env_restored : bool;
  env_has_credentials : bool;
  (* the entries of the home directory *)
  home : gmap string node;
  (* the answers of the user still to come *)
  stdin : list key;
  (* for each file or process operation still to come, the exception it
     raises, if any; when the list is used up, nothing fails any more *)
  faults : list (option exn);
  (* what has been printed and started so far *)
  stdout : list event;
  os : host
}.

Definition set_verbose (b : bool) (s : state) : state :=
  State b (env_restored s) (env_has_credentials s) (home s) (stdin s)
        (faults s) (stdout s) (os s).
Definition set_env_restored (b : bool) (s : state) : state :=
  State (verbose s) b (env_has_credentials s) (home s) (stdin s)
        (faults s) (stdout s) (os s).
Definition set_env_has_credentials (b : bool) (s : state) : state :=
  State (verbose s) (env_restored s) b (home s) (stdin s)
        (faults s) (stdout s) (os s).
Definition set_home (h : gmap string node) (s : state) : state :=
  State (verbose s) (env_restored s) (env_has_credentials s) h (stdin s)
        (faults s) (stdout s) (os s).
Definition set_stdin (k : list key) (s : state) : state :=
  State (verbose s) (env_restored s) (env_has_credentials s) (home s) k
        (faults s) (stdout s) (os s).
Definition set_faults (f : list (option exn)) (s : state) : state :=
  State (verbose s) (env_restored s) (env_has_credentials s) (home s) (stdin s)
        f (stdout s) (os s).
Definition set_stdout (t : list event) (s : state) : state :=
  State (verbose s) (env_restored s) (env_has_credentials s) (home s) (stdin s)
        (faults s) t (os s).

(** ** The monad of the script: state and exceptions *)

Definition M (A : Type) : Type := state → outcome A * state.

Definition ret {A} (a : A) : M A := λ s, (Return a, s).

Definition bind {A B} (m : M A) (k : A → M B) : M B :=
  λ s, match m s with
       | (Return a, s') => k a s'
       | (Raise e, s') => (Raise e, s')
       end.

Definition raise {A} (e : exn) : M A := λ s, (Raise e, s).

(** [try: body except <catches> as e: handler e]. *)
Definition try_except {A} (body : M A) (catches : exn → bool)
    (handler : exn → M A) : M A :=
  λ s, match body s with
       | (Raise e, s') => if catches e then handler e s' else (Raise e, s')
       | r => r
       end.

Definition get {A} (f : state → A) : M A := λ s, (Return (f s), s).
Definition modify (f : state → state) : M unit := λ s, (Return (), f s).

Declare Scope py_scope.
Delimit Scope py_scope with py.
Notation "x <- m ;; k" := (bind m (λ x, k))
  (at level 100, m at next level, right associativity) : py_scope.
Notation "m >> k" := (bind m (λ _, k))
  (at level 100, right associativity) : py_scope.
Open Scope py_scope.

(** ** Terminal and process primitives *)

(** [print(text)]. *)
Definition print (text : string) : M unit :=
  modify (λ s, set_stdout (stdout s ++ [Echo text]) s).

(** [input(prompt)]: the prompt is shown, then the next answer of the user
    is returned; [EOFError] when the input has ended. *)
Definition input (prompt : string) : M string :=
  λ s, let s := set_stdout (stdout s ++ [Input prompt]) s in
       match stdin s with
       | [] => (Raise EOFError, s)
       | CtrlC :: rest => (Raise KeyboardInterrupt, set_stdin rest s)
       | Enter line :: rest => (Return line, set_stdin rest s)
       end.

(** The exception that the next file or process operation meets. *)
Definition next_fault (s : state) : option exn :=
  match faults s with
  | Some e :: _ => Some e
  | _ => None
  end.

(** The machine once that operation is over. *)
Definition pop (s : state) : state := set_faults (tail (faults s)) s.

(** Every file and process operation first asks the environment whether it
    fails. *)
Definition io : M unit :=
  λ s, match next_fault s with
       | Some e => (Raise e, pop s)
       | None => (Return (), pop s)
       end.

(** [time.sleep(seconds)]. *)
Definition sleep (seconds : nat) : M unit :=
  modify (λ s, set_stdout (stdout s ++ [Sleep seconds]) s).

(** [subprocess.run(cmd, ...)] and [subprocess.call(cmd)]: the process is
    started and waited for.  What a collaborator does to files is not part
    of the model, except for the editor (see [edit_env]). *)
Definition subprocess (cmd : list string) : M unit :=
  io >> modify (λ s, set_stdout (stdout s ++ [Run cmd]) s).

(** ** File system primitives *)

Fixpoint node_at (n : node) (p : path) : option node :=
  match p with
  | [] => Some n
  | x :: p' =>
      match n with
      | Dir d => match d !! x with Some c => node_at c p' | None => None end
      | File _ => None
      end
  end.

(** The node at [p] below the home directory. *)
Definition stat (p : path) (s : state) : option node :=
  node_at (Dir (home s)) p.

(** The errors of [stat] that [Path.exists()] takes for a missing path
    ([ENOENT] and [ENOTDIR]; the script cannot meet [EBADF] or [ELOOP]). *)
Definition ignored_by_exists (e : exn) : bool :=
  match e with
  | FileNotFoundError | NotADirectoryError => true
  | _ => false
  end.

(** [Path.exists()]: a call of [stat], which is a file operation like the
    others.  An error that says the path is missing gives [False]; every
    other one is raised again, as is [PermissionError] for an entry of a
    directory that cannot be searched. *)
Definition exists_ (p : path) : M bool :=
  λ s, match next_fault s with
       | Some e =>
           if ignored_by_exists e then (Return false, pop s)
           else (Raise e, pop s)
       | None => (Return (bool_decide (is_Some (stat p s))), pop s)
       end.

(** Replace ([Some]) or remove ([None]) the entry at [p]; [None] when the
    parent of [p] is not a directory. *)
Fixpoint put (p : path) (v : option node) (n : node) : option node :=
  match n, p with
  | Dir d, x :: p' =>
      match p' with
      | [] => Some (Dir (match v with
                         | Some c => <[x:=c]> d
                         | None => delete x d
                         end))
      | _ :: _ =>
          match d !! x with
          | Some c => (λ c', Dir (<[x:=c']> d)) <$> put p' v c
          | None => None
          end
      end
  | _, _ => None
  end.

(** The exception of [open] when the parent of [p] is no directory. *)
Definition no_parent (p : path) (h : gmap string node) : exn :=
  match node_at (Dir h) (removelast p) with
  | Some (File _) => NotADirectoryError
  | _ => FileNotFoundError
  end.

(** The home directory with [n] at [p], or the exception of [open]. *)
Definition placed (p : path) (n : node) (h : gmap string node) :
    exn + gmap string node :=
  match put p (Some n) (Dir h) with
  | Some (Dir h') => inr h'
  | _ => inl (no_parent p h)
  end.

(** What [open(p, 'w').write(text)] does to the home directory. *)
Definition written (p : path) (text : string) (h : gmap string node) :
    exn + gmap string node :=
  match node_at (Dir h) p with
  | Some (Dir _) => inl IsADirectoryError
  | _ => placed p (File text) h
  end.

(** What [open(p, 'a').write(text)] does. *)
Definition appended (p : path) (text : string) (h : gmap string node) :
    exn + gmap string node :=
  match node_at (Dir h) p with
  | Some (Dir _) => inl IsADirectoryError
  | Some (File old) => placed p (File (old +:+ text)) h
  | None => placed p (File text) h
  end.

(** What [Path.mkdir(parents=True, exist_ok=True)] does for a child [name]
    of the home directory (the only use is on [install_dir]). *)
Definition made_dir (name : string) (h : gmap string node) :
    exn + gmap string node :=
  match h !! name with
  | Some (Dir _) => inr h
  | Some (File _) => inl FileExistsError
  | None => inr (<[name := Dir ∅]> h)
  end.

(** What [shutil.move(src, dst)] does between two children of the home
    directory.  An existing directory [dst] receives [src] as a new entry
    under the name of [src], unless it has one already; a directory is not
    moved onto an existing file; a file replaces an existing file. *)
Definition moved (src dst : string) (h : gmap string node) :
    exn + gmap string node :=
  match h !! dst with
  | Some (Dir d) =>
      match d !! src with
      | Some _ => inl ShutilError
      | None =>
          match h !! src with
          | Some n => inr (<[dst := Dir (<[src := n]> d)]> (delete src h))
          | None => inl FileNotFoundError
          end
      end
  | Some (File _) =>
      match h !! src with
      | Some (File c) => inr (<[dst := File c]> (delete src h))
      | Some (Dir _) => inl FileExistsError
      | None => inl FileNotFoundError
      end
  | None =>
      match h !! src with
      | Some n => inr (<[dst := n]> (delete src h))
      | None => inl FileNotFoundError
      end
  end.

(** What [shutil.copy2(src, dst)] does: the text of the file [src] is
    written to [dst], or into [dst] under the name of [src] when [dst] is a
    directory.  File metadata is not part of the model. *)
Definition copied (src dst : path) (h : gmap string node) :
    exn + gmap string node :=
  match node_at (Dir h) src with
  | Some (File content) =>
      let target :=
        match node_at (Dir h) dst with
        | Some (Dir _) => dst ++ [default EmptyString (last src)]
        | _ => dst
        end in
      match node_at (Dir h) target with
      | Some (Dir _) => inl IsADirectoryError
      | _ => placed target (File content) h
      end
  | Some (Dir _) => inl IsADirectoryError
  | None => inl (no_parent src h)
  end.

(** An operation that changes the home directory, or fails. *)
Definition fs_update (f : gmap string node → exn + gmap string node) : M unit :=
  io >>
  h <- get home ;;
  match f h with
  | inl e => raise e
  | inr h' => modify (set_home h')
  end.

(** [open(p, 'r').read()]. *)
Definition read_text (p : path) : M string :=
  io >>
  h <- get home ;;
  match node_at (Dir h) p with
  | Some (File content) => ret content
  | Some (Dir _) => raise IsADirectoryError
  | None => raise (no_parent p h)
  end.

(** [open(p, 'w').write(text)], [open(p, 'a').write(text)], [Path.mkdir],
    [shutil.move] and [shutil.copy2]. *)
Definition write_text (p : path) (text : string) : M unit :=
  fs_update (written p text).

Definition append_text (p : path) (text : string) : M unit :=
  fs_update (appended p text).

Definition mkdir (name : string) : M unit :=
  fs_update (made_dir name).

Definition shutil_move (src dst : string) : M unit :=
  fs_update (moved src dst).

Definition shutil_copy2 (src dst : path) : M unit :=
  fs_update (copied src dst).

(** [Path.home().glob(prefix + "*")]: the names of the entries of the home
    directory that start with [prefix], in the order of the listing. *)
Definition glob (prefix : string) (listing : list string) : list string :=
  filter (λ name, String.prefix prefix name = true) listing.

(** The listing of the home directory. *)
Definition listdir (s : state) : list string :=
  (map_to_list (home s)).*1.

(** [sorted(paths)]: sibling paths are ordered by their names, as strings. *)
Definition sorted (names : list string) : list string :=
  merge_sort String.le names.

(** ** The installer *)

Definition install_dir : path := ["StitchKit"].
Definition env_file : path := ["StitchKit"; ".env"].

(** [str(p)] for a path below the home directory. *)
Definition path_str (p : path) (s : state) : string :=
  foldl (λ acc part, acc +:+ "/" +:+ part) (home_path (os s)) p.

Inductive status := success | error | warning | info.

Definition colors (st : status) : string :=
  match st with
  | success => Text.esc +:+ "[92m✓" +:+ Text.esc +:+ "[0m"
  | error => Text.esc +:+ "[91m✗" +:+ Text.esc +:+ "[0m"
  | warning => Text.esc +:+ "[93m⚠" +:+ Text.esc +:+ "[0m"
  | info => Text.esc +:+ "[94mℹ" +:+ Text.esc +:+ "[0m"
  end.

(** [print_header] and [print_status] with its four shorthands (lines
    24-51). *)
Definition print_header (text : string) : M unit :=
  print (Text.nl +:+ Text.times 50 "=") >>
  print ("  " +:+ text) >>
  print (Text.times 50 "=").

Definition print_status (message : string) (st : status) : M unit :=
  print (colors st +:+ " " +:+ message).

Definition print_success (message : string) : M unit := print_status message success.
Definition print_error (message : string) : M unit := print_status message error.
Definition print_warning (message : string) : M unit := print_status message warning.
Definition print_info (message : string) : M unit := print_status message info.

(** [sys.version_info < (3, 7)] decides; [sys.version.split()[0]] is the
    first word of [sys.version]. *)
Definition check_python_version : M bool :=
  h <- get os ;;
  if Text.tuple_ltb (version_info h) [3; 7] then
    print_error ("Python 3.7+ required. Current: " +:+ version h) >>
    ret false
  else
    match String.words (version h) with
    | [] => raise IndexError
    | word :: _ =>
        print_success ("Python " +:+ word +:+ " detected") >>
        ret true
    end.

(** [check_env_credentials] (lines 123-141 of install_stitchkit.py). *)
Definition check_env_credentials : M bool :=
  present <- exists_ env_file ;;
  if negb present then ret false
  else
    try_except
      (content <- read_text env_file ;;
       ret (credentials_in content))
      is_Exception
      (λ _, ret false).

Definition backup_pattern : string := "StitchKit.backup-".

(** The name of the backup directory of this run. *)
Definition backup_name (s : state) : string :=
  backup_pattern +:+ now (os s).

(** [backup_existing] (lines 80-92). *)
Definition backup_existing : M (option string) :=
  backup_dir <- get backup_name ;;
  try_except
    (where_ <- get (path_str [backup_dir]) ;;
     print_info ("Creating backup at " +:+ where_) >>
     shutil_move "StitchKit" backup_dir >>
     print_success "Backup created successfully" >>
     ret (Some backup_dir))
    is_Exception
    (λ e, print_error ("Backup failed: " +:+ exn_text e) >>
          ret None).

(** [backups[-1]] of [restore_env_from_backup], [None] when [backups] is
    empty. *)
Definition latest_backup_of (listing : list string) : option string :=
  last (sorted (glob backup_pattern listing)).

(** The body of [if response == 'y':] in [restore_env_from_backup]. *)
Definition restore_config (backup_env : path) : M bool :=
  mkdir "StitchKit" >>
  shutil_copy2 backup_env env_file >>
  print_success "Configuration restored from backup" >>
  modify (set_env_restored true) >>
  ok <- check_env_credentials ;;
  modify (set_env_has_credentials ok) >>
  ret true.

(** [restore_env_from_backup] (lines 94-121). *)
Definition restore_env_from_backup : M bool :=
  latest <- get (λ s, latest_backup_of (listdir s)) ;;
  match latest with
  | None => ret false
  | Some latest_backup =>
      let backup_env := [latest_backup; ".env"] in
      present <- exists_ backup_env ;;
      if present then
        print_warning ("Found backup configuration in " +:+ latest_backup) >>
        response <- input "Restore your API credentials from backup? (y/n): " ;;
        if String.eqb (Text.lower response) "y" then restore_config backup_env
        else ret false
      else ret false
  end.

(** The body of [if response == 'y':] in [check_existing_installation]. *)
Definition backup_then_restore : M unit :=
  backup_dir <- backup_existing ;;
  match backup_dir with
  | Some _ => restore_env_from_backup >> ret ()
  | None => ret ()
  end.

(** [check_existing_installation] (lines 61-78). *)
Definition check_existing_installation : M bool :=
  installed <- exists_ install_dir ;;
  if installed then
    where_ <- get (path_str install_dir) ;;
    print_warning ("StitchKit already installed at " +:+ where_) >>
    has_env <- exists_ env_file ;;
    (if has_env then print_info "Found existing .env configuration file"
     else ret ()) >>
    response <- input (Text.nl +:+ "Backup existing installation? (y/n): ") ;;
    (if String.eqb (Text.lower response) "y" then backup_then_restore
     else ret ()) >>
    ret true
  else ret false.

(** [install_dependencies] (lines 143-177). *)
Definition install_dependencies : M bool :=
  let requirements_file := ["StitchKit"; "requirements.txt"] in
  present <- exists_ requirements_file ;;
  if negb present then
    print_warning "requirements.txt not found" >>
    ret true
  else
    print_info "Installing Python dependencies..." >>
    try_except
      (h <- get os ;;
       req <- get (path_str requirements_file) ;;
       subprocess [executable h; "-m"; "pip"; "install"; "--upgrade"; "pip"] >>
       subprocess [executable h; "-m"; "pip"; "install"; "-r"; req] >>
       if pip_returncode h =? 0 then
         print_success "Dependencies installed successfully" >>
         ret true
       else
         print_error ("Failed to install dependencies: " +:+ pip_stderr h) >>
         ret false)
      is_Exception
      (λ e, print_error ("Error installing dependencies: " +:+ exn_text e) >>
            ret false).

(** The text that [create_basic_env] writes. *)
Definition env_content : string :=
  Text.unlines [
    "################################################################################";
    "#                                                                              #";
    "#                    🎓 StitchKit Environment Configuration 🎓                 #";
    "#                        University of St. Thomas                             #";
    "#                                                                              #";
    "################################################################################";
    EmptyString;
    "#===============================================================================";
    "# 🚀 APPLICATION SETTINGS";
    "#===============================================================================";
    EmptyString;
    "# Application name and branding";
    "STITCHKIT_APP_NAME=StitchKit";
    "STITCHKIT_APP_FULL_NAME=St. Thomas Instructional Technology Command Hub Kit";
    EmptyString;
    "# Logging level: DEBUG, INFO, WARNING, ERROR, CRITICAL";
    "STITCHKIT_LOG_LEVEL=INFO";
    EmptyString;
    "#===============================================================================";
    "# 🎨 CANVAS CONFIGURATION - MAIN";
    "#===============================================================================";
    EmptyString;
    "# [REQUIRED] Your Canvas API Key";
    "# 📝 How to get your Canvas API key:";
    "#    1. Log into Canvas (https://stthomas.instructure.com)";
    "#    2. Click on " +:+ Text.dq +:+ "Account" +:+ Text.dq +:+ " in the left sidebar";
    "#    3. Click on " +:+ Text.dq +:+ "Settings" +:+ Text.dq;
    "#    4. Scroll down to " +:+ Text.dq +:+ "Approved Integrations" +:+ Text.dq;
    "#    5. Click " +:+ Text.dq +:+ "+ New Access Token" +:+ Text.dq;
    "#    6. Enter a purpose (e.g., " +:+ Text.dq +:+ "StitchKit Admin Tools" +:+ Text.dq +:+ ")";
    "#    7. Leave expiration blank for permanent token (or set a date)";
    "#    8. Click " +:+ Text.dq +:+ "Generate Token" +:+ Text.dq;
    "#    9. ⚠️ COPY THE TOKEN NOW - you won't see it again!";
    "#    10. Paste it below";
    "CANVAS_API_KEY=your_canvas_api_key_here";
    EmptyString;
    "# Your Canvas instance URL";
    "CANVAS_BASE_URL=https://stthomas.instructure.com";
    EmptyString;
    "# Your Canvas Account ID (usually 1 for main account)";
    "CANVAS_ACCOUNT_ID=1";
    EmptyString;
    "#===============================================================================";
    "# 🔄 CANVAS MULTI-ENVIRONMENT SETUP (Future Feature)";
    "#===============================================================================";
    "# Note: These are placeholders for future multi-environment support";
    "# They are NOT currently active in StitchKit";
    EmptyString;
    "# Production Environment (future feature)";
    "CANVAS_PROD_API_KEY=your_production_api_key_here";
    "CANVAS_PROD_BASE_URL=https://stthomas.instructure.com";
    "CANVAS_PROD_ACCOUNT_ID=1";
    EmptyString;
    "# Test Environment (future feature)";
    "CANVAS_TEST_API_KEY=your_test_api_key_here";
    "CANVAS_TEST_BASE_URL=https://stthomas.test.instructure.com";
    "CANVAS_TEST_ACCOUNT_ID=1";
    EmptyString;
    "# Default environment selection (future feature)";
    "CANVAS_DEFAULT_ENV=test";
    EmptyString;
    "# Canvas integration toggle";
    "CANVAS_ENABLED=true";
    EmptyString;
    "#===============================================================================";
    "# 📚 CANVAS CATALOG INTEGRATION";
    "#===============================================================================";
    EmptyString;
    "# [OPTIONAL] Canvas Catalog API Token";
    "# 📝 How to get your Canvas Catalog token:";
    "#    1. Log into Canvas Catalog admin";
    "#    2. Navigate to Admin → Settings → API Access";
    "#    3. Generate a new API token";
    "#    4. Copy and paste it here";
    "CANVAS_CAT_API_TOKEN=your_canvas_catalog_token_here";
    EmptyString;
    "#===============================================================================";
    "# 🛡️ HONORLOCK INTEGRATION";
    "#===============================================================================";
    EmptyString;
    "# [REQUIRED] Honorlock Consumer Key";
    "# 📝 How to get Honorlock credentials:";
    "#    1. Contact your Honorlock representative";
    "#    2. Request LTI integration credentials for your institution";
    "#    3. They will provide the consumer key and shared secret";
    "HONORLOCK_CONSUMER_KEY=your_honorlock_consumer_key_here";
    EmptyString;
    "# [REQUIRED] Honorlock Shared Secret";
    "# ⚠️ Keep this secret! Do not share or commit to version control";
    "HONORLOCK_SHARED_SECRET=your_honorlock_shared_secret_here";
    EmptyString;
    "# Honorlock Configuration URL (typically the same for all institutions)";
    "HONORLOCK_CONFIG_URL=https://app.honorlock.com/lti_config";
    EmptyString;
    "#===============================================================================";
    "# 📝 IMPORTANT NOTES";
    "#===============================================================================";
    "# ";
    "# ⚠️ REQUIRED FIELDS:";
    "#    • CANVAS_API_KEY - Must be set for StitchKit to function";
    "#    • HONORLOCK_CONSUMER_KEY - Required for Honorlock integration";
    "#    • HONORLOCK_SHARED_SECRET - Required for Honorlock integration";
    "#";
    "# 💡 SECURITY REMINDER:";
    "#    • Never commit this .env file to Git";
    "#    • Keep your API keys secret and secure";
    "#    • This file contains sensitive credentials";
    "#";
    "#==============================================================================="
  ].

(** [create_basic_env] (lines 179-295). *)
Definition create_basic_env : M unit :=
  write_text env_file env_content >>
  print_success "Created .env configuration file".

(** [setup_environment] (lines 297-309). *)
Definition setup_environment : M bool :=
  restored <- get env_restored ;;
  kept <- (if restored then exists_ env_file else ret false) ;;
  if kept then ret true
  else
    present <- exists_ env_file ;;
    (if negb present then create_basic_env else ret ()) >>
    ret true.

(** The shell start-up file that [create_alias] picks from [$SHELL]. *)
Definition rc_file_name (shell : string) : string :=
  if Text.contains "zsh" shell then ".zshrc"
  else if Text.contains "bash" shell then ".bashrc"
  else ".profile".

Definition alias_line : string :=
  "alias stitchkit=" +:+ Text.dq +:+ "cd ~/StitchKit && python3 main.py" +:+ Text.dq.

(** [create_alias] (lines 311-341). *)
Definition create_alias : M unit :=
  try_except
    (h <- get os ;;
     let shell := default "/bin/bash" (SHELL h) in
     let rc_file := rc_file_name shell in
     present <- exists_ [rc_file] ;;
     known <- (if present then
                 text <- read_text [rc_file] ;;
                 ret (Text.contains "alias stitchkit=" text)
               else ret false) ;;
     if known then print_info "Alias 'stitchkit' already exists"
     else
       append_text [rc_file]
         (Text.nl +:+ "# StitchKit alias" +:+ Text.nl +:+ alias_line +:+ Text.nl) >>
       print_success ("Created 'stitchkit' alias in " +:+ rc_file) >>
       print_info ("Note: Run 'source ~/" +:+ rc_file
                   +:+ "' or restart terminal to use alias"))
    is_Exception
    (λ e, print_warning ("Could not create alias: " +:+ exn_text e)).

(** What the session in the editor does to the configuration file: the
    text the user leaves behind replaces the text found. *)
Definition edited (f : option string → option string)
    (h : gmap string node) : gmap string node :=
  match h !! "StitchKit" with
  | Some (Dir d) =>
      match d !! ".env" with
      | Some (Dir _) => h
      | Some (File old) =>
          match f (Some old) with
          | Some new => <["StitchKit" := Dir (<[".env" := File new]> d)]> h
          | None => <["StitchKit" := Dir (delete ".env" d)]> h
          end
      | None =>
          match f None with
          | Some new => <["StitchKit" := Dir (<[".env" := File new]> d)]> h
          | None => h
          end
      end
  | _ => h
  end.

(** [subprocess.call([program, str(env_file)])]. *)
Definition edit_env (program : string) : M unit :=
  file <- get (path_str env_file) ;;
  subprocess [program; file] >>
  modify (λ s, set_home (edited (editor (os s)) (home s)) s).

(** [guide_env_setup] (lines 343-381). *)
Definition guide_env_setup : M unit :=
  print_header "Configure Canvas API Credentials" >>
  print (Text.nl +:+ "You need to add your API credentials to the .env file.") >>
  print ("We'll open the file in nano editor for you." +:+ Text.nl) >>
  print "Required credentials:" >>
  print "  1. CANVAS_API_KEY - Your Canvas API key" >>
  print "  2. HONORLOCK_CONSUMER_KEY - Your Honorlock consumer key" >>
  print ("  3. HONORLOCK_SHARED_SECRET - Your Honorlock shared secret" +:+ Text.nl) >>
  print "In nano:" >>
  print "  • Use arrow keys to navigate" >>
  print "  • Replace 'your_xxx_here' with actual values" >>
  print "  • Press Ctrl+O to save" >>
  print ("  • Press Ctrl+X to exit" +:+ Text.nl) >>
  _ <- input "Press Enter to open the editor..." ;;
  opened <- try_except
              (edit_env "nano" >> ret true)
              is_FileNotFoundError
              (λ _, try_except
                      (edit_env "vi" >> ret true)
                      is_FileNotFoundError
                      (λ _, print_error "No text editor found. Please edit .env manually" >>
                            ret false)) ;;
  if opened then
    ok <- check_env_credentials ;;
    modify (set_env_has_credentials ok) >>
    if ok then print_success "Credentials configured successfully!"
    else print_warning "Some credentials may still need to be configured"
  else ret ().

(** The lines of [show_manual_next_steps]. *)
Definition manual_next_steps : list event :=
  [ Echo (Text.nl +:+ Text.times 50 "=");
    Echo "Next steps:";
    Echo (Text.nl +:+ "1. Configure your API credentials:");
    Echo "   cd ~/StitchKit";
    Echo "   nano .env";
    Echo "   (Add your Canvas API key and other credentials)";
    Echo (Text.nl +:+ "2. Run StitchKit:");
    Echo "   python3 main.py";
    Echo "   Or use the alias: stitchkit";
    Echo (Text.nl +:+ "For help, see the README or contact IT support.") ].

Definition show_manual_next_steps : M unit :=
  modify (λ s, set_stdout (stdout s ++ manual_next_steps) s).

(** [os.chdir(self.install_dir)]. *)
Definition chdir_install_dir : M unit :=
  io >>
  n <- get (stat install_dir) ;;
  where_ <- get (path_str install_dir) ;;
  match n with
  | Some (Dir _) => modify (λ s, set_stdout (stdout s ++ [Chdir where_]) s)
  | Some (File _) => raise NotADirectoryError
  | None => raise FileNotFoundError
  end.

(** The command that starts the target application. *)
Definition launch_cmd (s : state) : list string :=
  [executable (os s); "main.py"].

(** The [try] block around the start of the target application. *)
Definition launch : M unit :=
  try_except
    (chdir_install_dir >>
     cmd <- get launch_cmd ;;
     subprocess cmd)
    is_Exception
    (λ e, print_error ("Could not launch StitchKit: " +:+ exn_text e) >>
          show_manual_next_steps).

(** The body of [if response == 'y':] in step 7 of [run]. *)
Definition guided_setup : M unit :=
  guide_env_setup >>
  ready <- get env_has_credentials ;;
  if ready then
    print (Text.nl +:+ "Launching StitchKit...") >>
    sleep 1 >>
    launch
  else show_manual_next_steps.

(** Step 7 of [run]: launch, or guide the user. *)
Definition final_steps : M unit :=
  print (Text.nl +:+ Text.times 50 "=") >>
  known <- get env_has_credentials ;;
  (if negb known then
     ok <- check_env_credentials ;;
     modify (set_env_has_credentials ok)
   else ret ()) >>
  ready <- get env_has_credentials ;;
  if ready then
    print_success "✨ StitchKit is ready to use!" >>
    print (Text.nl +:+ "Your credentials are configured. Launching StitchKit..." +:+ Text.nl) >>
    sleep 2 >>
    launch
  else
    print_warning "⚠️ API credentials need to be configured" >>
    response <- input (Text.nl +:+ "Would you like to configure them now? (y/n): ") ;;
    if String.eqb (Text.lower response) "y" then guided_setup
    else show_manual_next_steps.

(** [run] (lines 396-475). *)
Definition run : M bool :=
  print_header "StitchKit Python Installer" >>
  args <- get (λ s, argv (os s)) ;;
  (if bool_decide ("--verbose" ∈ args) then modify (set_verbose true) else ret ()) >>
  (* Step 1: Check Python version *)
  supported <- check_python_version ;;
  if negb supported then ret false
  else
    (* Step 2: Check for existing installation *)
    _ <- check_existing_installation ;;
    (* Step 3: Ensure install directory exists *)
    installed <- exists_ install_dir ;;
    (if negb installed then
       where_ <- get (path_str install_dir) ;;
       print_info ("Creating installation directory at " +:+ where_) >>
       mkdir "StitchKit"
     else ret ()) >>
    (* Step 4: Install dependencies *)
    deps <- install_dependencies ;;
    (if negb deps then
       print_warning "Some dependencies may not have installed correctly"
     else ret ()) >>
    (* Step 5: Setup environment *)
    configured <- setup_environment ;;
    if negb configured then ret false
    else
      (* Step 6: Create alias *)
      create_alias >>
      (* Step 7: Final steps based on credential status *)
      final_steps >>
      ret true.

(** [StitchKitInstaller()]: the fields of a new installer object. *)
Definition new_installer (s : state) : state :=
  set_verbose false (set_env_restored false (set_env_has_credentials false s)).

(** [main()]: the exit code of the process and the machine it leaves. *)
Definition main (s : state) : nat * state :=
  match run (new_installer s) with
  | (Return ok, s') => (if ok then 0 else 1, s')
  | (Raise KeyboardInterrupt, s') =>
      (1, set_stdout (stdout s' ++ [Echo (Text.nl +:+ Text.nl +:+ "Installation cancelled by user")]) s')
  | (Raise e, s') =>
      (1, set_stdout (stdout s' ++ [Echo (Text.nl +:+ "Installation error: " +:+ exn_text e)]) s')
  end.

(** * Vocabulary of the properties *)

(** The file cannot be read: [open] or [read] raises an exception of class
    [Exception]. *)
Definition read_fails (p : path) (s : state) : Prop :=
  ∃ e, (read_text p s).1 = Raise e ∧ is_Exception e = true.


(** A required field is assigned the empty value: its name and [=] are
    followed at once by the end of the line. *)
Definition assigned_empty (content : string) (field : string * string) : Prop :=
  Text.occurs (field.1 +:+ "=" +:+ Text.nl) content.

(** A configuration in which every required field has an empty value. *)
Definition empty_values : string :=
  Text.unlines [
    "CANVAS_API_KEY=";
    "HONORLOCK_CONSUMER_KEY=";
    "HONORLOCK_SHARED_SECRET="
  ].

(** A configuration with real values, in which a comment still quotes one
    placeholder. *)
Definition commented_placeholder : string :=
  Text.unlines [
    "# was: CANVAS_API_KEY=your_canvas_api_key_here";
    "CANVAS_API_KEY=7~abcDEF123";
    "HONORLOCK_CONSUMER_KEY=key-1";
    "HONORLOCK_SHARED_SECRET=secret-1"
  ].

(** [a] sorts strictly before [b]. *)
Definition name_lt (a b : string) : Prop := strict String.le a b.

(** A listing of a home directory with three backups, not in the order of
    their timestamps, and other entries. *)
Definition three_backups : list string :=
  [ "StitchKit.backup-20240615-101500";
    ".bashrc";
    "StitchKit.backup-20250101-000000";
    "StitchKit";
    "StitchKit.backup-20231130-235959" ].

(** The three questions the script asks. *)
Definition backup_prompt : string :=
  Text.nl +:+ "Backup existing installation? (y/n): ".
Definition restore_prompt : string :=
  "Restore your API credentials from backup? (y/n): ".
Definition configure_prompt : string :=
  Text.nl +:+ "Would you like to configure them now? (y/n): ".

(** The machine has just put [prompt] to the user, and [rest] is what the
    user will type after the answer; no file has changed meanwhile. *)
Definition asked (prompt : string) (rest : list key) (before s : state) : Prop :=
  last (stdout s) = Some (Input prompt) ∧
  (∃ out, stdout s = stdout before ++ out) ∧
  stdin s = rest ∧
  home s = home before ∧
  env_restored s = env_restored before ∧
  os s = os before.

(** The two ways in which the script ends well: the last thing it did was
    to start the target application, or to print the manual next steps. *)
Definition launched (s : state) : Prop :=
  last (stdout s) = Some (Run (launch_cmd s)).
Definition guided_manual (s : state) : Prop :=
  manual_next_steps `suffix_of` stdout s.

(** [sys.version_info < (3, 7)]. *)
Definition below_floor (s : state) : Prop :=
  Text.tuple_ltb (version_info (os s)) [3; 7] = true.

(** The installation has a configuration file that passes the check. *)
Definition complete_installation (s : state) (content : string) : Prop :=
  stat env_file s = Some (File content) ∧ credentials_in content = true.

(** The machine as a new process of the script finds it: the files are as
    they were left, the terminal is cleared. *)
Definition next_process (s : state) : state := set_stdout [] s.

(** The question about a backup has been put to the user. *)
Definition backup_asked (s : state) : Prop := Input backup_prompt ∈ stdout s.

(** The script went from [s] to [s'] with no operation failing, without
    reading from the user and without touching the installation. *)
Definition carries_on (s s' : state) : Prop :=
  home s' !! "StitchKit" = home s !! "StitchKit" ∧
  faults s' = [] ∧ stdin s' = stdin s ∧ os s' = os s ∧
  env_restored s' = env_restored s ∧
  env_has_credentials s' = env_has_credentials s ∧
  ∃ out, stdout s' = stdout s ++ out.

(** ** Example machines *)

Definition demo_host : host :=
  {| home_path := "/home/ada";
     version_info := [3; 11; 4];
     version := "3.11.4 (main, Jun  7 2023, 00:00:00) [GCC 12.2.0]";
     executable := "/usr/bin/python3";
     argv := ["install_stitchkit.py"];
     SHELL := Some "/bin/zsh";
     now := "20240102-030405";
     pip_returncode := 0;
     pip_stderr := EmptyString;
     editor := λ text, text |}.

(** A configuration with the three credentials filled in. *)
Definition complete_env : string :=
  Text.unlines [
    "CANVAS_API_KEY=7~abcDEF123";
    "HONORLOCK_CONSUMER_KEY=key-1";
    "HONORLOCK_SHARED_SECRET=secret-1"
  ].

(** A machine on which [home] is the home directory, the user will give
    [answers], the operations fail as [failing] says and nothing has been
    printed. *)
Definition machine (h : gmap string node) (answers : list key)
    (failing : list (option exn)) : state :=
  {| verbose := false; env_restored := false; env_has_credentials := false;
     home := h; stdin := answers; faults := failing; stdout := [];
     os := demo_host |}.

(** An installation with a complete configuration and nothing else. *)
Definition installed_home : gmap string node :=
  {[ "StitchKit" := Dir {[ ".env" := File complete_env ]} ]}.

(** An installation next to a backup whose name carries a later timestamp
    than the clock of [demo_host]. *)
Definition stale_backup_home : gmap string node :=
  <[ "StitchKit.backup-20250101-000000" := Dir {[ ".env" := File "OLD=1" ]} ]>
    installed_home.

(** The idempotence property in the words of the specification: on an
    installation whose configuration passes the check, with a supported
    Python, a user at the terminal and no operation failing, two runs in a
    row do not ask about a backup, both end with the target application
    started, and the configuration is as before. *)
Definition idempotence_as_stated : Prop :=
  ∀ s content,
    complete_installation s content →
    faults s = [] → ¬ below_floor s → String.words (version (os s)) ≠ [] →
    (∃ a1 a2 rest, stdin s = Enter a1 :: Enter a2 :: rest) →
    let first := main (next_process s) in
    let second := main (next_process first.2) in
    ¬ backup_asked first.2 ∧ ¬ backup_asked second.2 ∧
    launched first.2 ∧ launched second.2 ∧
    complete_installation second.2 content.

(** An installer whose restore flag is set, on an installation directory
    without a configuration file. *)
Definition restored_flag_only : state :=
  set_env_restored true (machine {[ "StitchKit" := Dir ∅ ]} [] []).

(** The order of the branches of [setup_environment] in the words of the
    specification, on a machine with an installation directory and no
    failing operation: if the configuration was restored from a backup,
    nothing is written; else if there is no configuration file, the
    template is written; else the file is left as it is. *)
Definition branches_as_stated : Prop :=
  ∀ s, faults s = [] → (∃ d, home s !! "StitchKit" = Some (Dir d)) →
    let s' := (setup_environment s).2 in
    if env_restored s then home s' = home s
    else match stat env_file s with
         | None => stat env_file s' = Some (File env_content)
         | Some n => stat env_file s' = Some n
         end.

(** A complete installation and a user who answers no twice. *)
Definition declining_user : state :=
  machine installed_home [Enter "n"; Enter "n"] [].

(** A complete installation, a waiting user, and a configuration file that
    cannot be read. *)
Definition unreadable_env : state :=
  machine installed_home [Enter "n"] [None; Some OSError].

(** A complete installation in a directory that cannot be searched: the
    existence test on the configuration file raises [PermissionError]. *)
Definition unsearchable_install : state :=
  machine installed_home [] [Some OSError].

(** A home directory without an installation. *)
Definition fresh_machine : state := machine ∅ [] [].

(** An installation next to a newer backup, and a user who agrees to the
    backup and to the restore. *)
Definition agreeing_user : state :=
  machine stale_backup_home [Enter "y"; Enter "Y"] [].

(** * Further vocabulary *)

(** The shell start-up file of this machine. *)
Definition rc_name (s : state) : string :=
  rc_file_name (default "/bin/bash" (SHELL (os s))).

(** [sys.version_info] starts with [major] and [minor], and they are below
    3.7. *)
Definition older_than_3_7 (major minor : nat) : Prop :=
  major < 3 ∨ (major = 3 ∧ minor < 7).

(** A machine whose Python is 3.6.9. *)
Definition legacy_machine : state :=
  {| verbose := false; env_restored := false; env_has_credentials := false;
     home := installed_home; stdin := [Enter "y"]; faults := []; stdout := [];
     os := {| home_path := "/home/ada";
              version_info := [3; 6; 9];
              version := "3.6.9 (default, Jan  1 2020, 00:00:00)";
              executable := "/usr/bin/python3";
              argv := ["install_stitchkit.py"];
              SHELL := Some "/bin/bash";
              now := "20240102-030405";
              pip_returncode := 0;
              pip_stderr := EmptyString;
              editor := λ text, text |} |}.

(** A machine without an installation, whose user will decline to
    configure the credentials. *)
Definition fresh_declining : state := machine ∅ [Enter "n"] [].

(** The entries of the home directory that the script has no business
    with: all but the installation, the backup of this run and the shell
    start-up file. *)
Definition spared (s : state) (name : string) : Prop :=
  name ≠ "StitchKit" ∧ name ≠ backup_name s ∧ name ≠ rc_name s.

(** From [s] to [s'] the spared entries are as they were. *)
Definition only_touches (s s' : state) : Prop :=
  os s' = os s ∧
  ∀ name, spared s name → home s' !! name = home s !! name.

(** Whatever the outcome, the step [m] leaves the spared entries as they
    were. *)
Definition leaves_spared {A} (m : M A) : Prop :=
  ∀ s r s', m s = (r, s') → only_touches s s'.

(** What [create_alias] appends to the shell start-up file. *)
Definition alias_block : string :=
  Text.nl +:+ "# StitchKit alias" +:+ Text.nl +:+ alias_line +:+ Text.nl.

(** A machine with a start-up file for zsh that has other content. *)
Definition zsh_user : state :=
  machine (<[".zshrc" := File "export EDITOR=vi"]> installed_home) [] [].

(** The manifest of the dependencies. *)
Definition requirements_file : path := ["StitchKit"; "requirements.txt"].

(** The command that installs the dependencies of the manifest. *)
Definition pip_install (s : state) : list string :=
  [executable (os s); "-m"; "pip"; "install"; "-r";
   path_str requirements_file s].

(** Only text has been printed from [s] to [s']: no question was put and
    no process was started. *)
Definition only_printed (s s' : state) : Prop :=
  ∀ e, e ∈ stdout s' → e ∈ stdout s ∨ ∃ text, e = Echo text.

(** An installation with a manifest, on which pip will fail. *)
Definition pip_failing : state :=
  {| verbose := false; env_restored := false; env_has_credentials := false;
     home := {[ "StitchKit" :=
                  Dir {[ "requirements.txt" := File "requests" ]} ]};
     stdin := []; faults := []; stdout := [];
     os := {| home_path := "/home/ada";
              version_info := [3; 11; 4];
              version := "3.11.4 (main)";
              executable := "/usr/bin/python3";
              argv := ["install_stitchkit.py"];
              SHELL := Some "/bin/bash";
              now := "20240102-030405";
              pip_returncode := 1;
              pip_stderr := "ERROR: No matching distribution found";
              editor := λ text, text |} |}.

(** An installation and a backup directory that already carries the name
    of the backup of this run. *)
Definition same_second : state :=
  machine (<[ "StitchKit.backup-20240102-030405" :=
                Dir {[ "notes.txt" := File "keep me" ]} ]> installed_home)
          [] [].

(** The commands that open the configuration file in an editor. *)
Definition nano_cmd (s : state) : list string := ["nano"; path_str env_file s].
Definition vi_cmd (s : state) : list string := ["vi"; path_str env_file s].

(** A machine on which neither nano nor vi is installed. *)
Definition no_editor : state :=
  machine installed_home [Enter EmptyString]
          [Some FileNotFoundError; Some FileNotFoundError].

(** From [s] to [s'] the script has only printed text or put a question:
    no file has changed, no operation was tried and no process started. *)
Definition quiet (s s' : state) : Prop :=
  home s' = home s ∧ faults s' = faults s ∧ os s' = os s ∧
  env_restored s' = env_restored s ∧
  env_has_credentials s' = env_has_credentials s ∧
  (∀ cmd, Run cmd ∈ stdout s' → Run cmd ∈ stdout s) ∧
  ∃ out, stdout s' = stdout s ++ out.

(** A complete installation next to the backup of an earlier year, and a
    user who agrees to the backup and to the restore. *)
Definition returning_user : state :=
  machine (<[ "StitchKit.backup-20230101-000000" :=
                Dir {[ ".env" := File "OLD=1" ]} ]> installed_home)
          [Enter "y"; Enter "Y"] [].

(** A complete installation and a user who interrupts at the first
    question. *)
Definition interrupting_user : state :=
  machine installed_home [CtrlC] [].

(** The line that reports a failed start of the target application. *)
Definition launch_failure (e : exn) : event :=
  Echo (colors error +:+ " " +:+ "Could not launch StitchKit: " +:+ exn_text e).

(** A complete installation on which the target application cannot be
    started. *)
Definition broken_launch : state :=
  machine installed_home [] [None; Some OSError].
(** * Properties *)

(** ** Substrings and lower case *)

Lemma prefix_occurs (p s : string) :
  String.prefix p s = true ↔ ∃ after, s = p +:+ after.
Proof.
  revert s. induction p as [|a p IH]; intros s; simpl.
  - split; [intros _; by exists s | by destruct s].
  - destruct s as [|b s]; simpl.
    + split; [done | intros [after H]; discriminate H].
    + destruct (ascii_dec a b) as [->|Hne].
      * rewrite IH. split; intros [after H]; exists after.
        -- by rewrite H.
        -- by injection H.
      * split; [done | intros [after H]; injection H; congruence].
Qed.

Lemma contains_occurs (needle hay : string) :
  Text.contains needle hay = true ↔ Text.occurs needle hay.
Proof.
  unfold Text.occurs. induction hay as [|c hay IH].
  - cbn [Text.contains]. rewrite orb_false_r, prefix_occurs. split.
    + intros [after H]. by exists EmptyString, after.
    + intros ([|b before] & after & H).
      * by exists after.
      * discriminate H.
  - cbn [Text.contains]. rewrite orb_true_iff, IH, prefix_occurs. split.
    + intros [[after H] | (before & after & H)].
      * by exists EmptyString, after.
      * exists (String c before), after. by rewrite H.
    + intros ([|b before] & after & H).
      * left. by exists after.
      * right. exists before, after. by injection H.
Qed.

Lemma contains_not_occurs (needle hay : string) :
  Text.contains needle hay = false ↔ ¬ Text.occurs needle hay.
Proof. rewrite <- contains_occurs. by destruct (Text.contains needle hay). Qed.

Lemma string_app_cons (c : ascii) (a b : string) :
  String c a +:+ b = String c (a +:+ b).
Proof. reflexivity. Qed.

Lemma string_app_assoc (a b c : string) :
  (a +:+ b) +:+ c = a +:+ (b +:+ c).
Proof.
  induction a as [|x a IH]; [done|].
  by rewrite !string_app_cons, IH.
Qed.

(** An occurrence stays one inside a longer text. *)
Lemma occurs_app (needle inner hay : string) :
  Text.occurs needle inner → Text.occurs inner hay → Text.occurs needle hay.
Proof.
  intros (b1 & a1 & ->) (b2 & a2 & ->).
  exists (b2 +:+ b1), (a1 +:+ a2).
  by rewrite !string_app_assoc.
Qed.

Lemma lower_ascii_y (c : ascii) :
  Text.lower_ascii c = "y"%char ↔ c = "y"%char ∨ c = "Y"%char.
Proof.
  split; [|by intros [-> | ->]].
  destruct c as [[] [] [] [] [] [] [] []]; vm_compute; intros H;
    try discriminate H; auto.
Qed.

(** The answers that lower to ['y'] are ["y"] and ["Y"]. *)
Lemma lower_y (r : string) :
  Text.lower r = "y" ↔ r = "y" ∨ r = "Y".
Proof.
  split; [|by intros [-> | ->]].
  destruct r as [|c [|d r]]; simpl; intros H; try discriminate H.
  injection H as H. apply lower_ascii_y in H as [-> | ->]; auto.
Qed.

Lemma eqb_lower_y (r : string) :
  String.eqb (Text.lower r) "y" = bool_decide (Text.lower r = "y").
Proof.
  case_bool_decide as H.
  - by apply String.eqb_eq.
  - by apply String.eqb_neq.
Qed.

(** ** The credential check *)

Lemma credentials_in_spec (content : string) :
  credentials_in content = true ↔ Forall (field_filled content) required_fields.
Proof.
  unfold credentials_in, required_fields, field_filled.
  rewrite !Forall_cons, Forall_nil. simpl.
  rewrite !andb_true_iff, !negb_true_iff, !contains_occurs, !contains_not_occurs.
  tauto.
Qed.


(** *** Frame equations of the machine *)

Global Arguments stat : simpl never.
Global Arguments next_fault : simpl never.
Global Arguments pop : simpl never.
Global Arguments path_str : simpl never.
Global Arguments colors : simpl never.
Global Arguments fs_update : simpl never.
Global Arguments read_text : simpl never.
Global Arguments check_env_credentials : simpl never.
Global Arguments backup_name : simpl never.
Global Arguments moved : simpl never.
Global Arguments copied : simpl never.
Global Arguments written : simpl never.
Global Arguments appended : simpl never.
Global Arguments made_dir : simpl never.
Global Arguments latest_backup_of : simpl never.
Global Arguments listdir : simpl never.
Global Arguments env_content : simpl never.
Global Arguments backup_then_restore : simpl never.
Global Arguments restore_config : simpl never.
Global Arguments guided_setup : simpl never.
Global Arguments backup_existing : simpl never.
Global Arguments restore_env_from_backup : simpl never.
Global Arguments guide_env_setup : simpl never.
Global Arguments launch : simpl never.
Global Arguments show_manual_next_steps : simpl never.
Global Arguments manual_next_steps : simpl never.
Global Arguments check_python_version : simpl never.
Global Arguments check_existing_installation : simpl never.
Global Arguments install_dependencies : simpl never.
Global Arguments setup_environment : simpl never.
Global Arguments create_alias : simpl never.
Global Arguments create_basic_env : simpl never.
Global Arguments final_steps : simpl never.
Global Arguments run : simpl never.

Lemma stat_same_home (p : path) (s s' : state) :
  home s' = home s → stat p s' = stat p s.
Proof. unfold stat. by intros ->. Qed.

Lemma stat_pop p s : stat p (pop s) = stat p s.
Proof. done. Qed.
Lemma stat_set_stdout p t s : stat p (set_stdout t s) = stat p s.
Proof. done. Qed.
Lemma stat_set_stdin p t s : stat p (set_stdin t s) = stat p s.
Proof. done. Qed.
Lemma stat_set_faults p t s : stat p (set_faults t s) = stat p s.
Proof. done. Qed.
Lemma stat_set_verbose p t s : stat p (set_verbose t s) = stat p s.
Proof. done. Qed.
Lemma stat_set_env_restored p t s : stat p (set_env_restored t s) = stat p s.
Proof. done. Qed.
Lemma stat_set_env_has_credentials p t s :
  stat p (set_env_has_credentials t s) = stat p s.
Proof. done. Qed.

Lemma next_fault_set_stdout t s : next_fault (set_stdout t s) = next_fault s.
Proof. done. Qed.
Lemma next_fault_set_stdin t s : next_fault (set_stdin t s) = next_fault s.
Proof. done. Qed.
Lemma next_fault_set_home t s : next_fault (set_home t s) = next_fault s.
Proof. done. Qed.
Lemma next_fault_set_verbose t s : next_fault (set_verbose t s) = next_fault s.
Proof. done. Qed.
Lemma next_fault_set_env_restored t s :
  next_fault (set_env_restored t s) = next_fault s.
Proof. done. Qed.
Lemma next_fault_set_env_has_credentials t s :
  next_fault (set_env_has_credentials t s) = next_fault s.
Proof. done. Qed.

Lemma home_pop s : home (pop s) = home s.
Proof. done. Qed.
Lemma stdout_pop s : stdout (pop s) = stdout s.
Proof. done. Qed.
Lemma stdin_pop s : stdin (pop s) = stdin s.
Proof. done. Qed.
Lemma os_pop s : os (pop s) = os s.
Proof. done. Qed.
Lemma env_restored_pop s : env_restored (pop s) = env_restored s.
Proof. done. Qed.
Lemma env_has_credentials_pop s :
  env_has_credentials (pop s) = env_has_credentials s.
Proof. done. Qed.

Lemma faults_pop_nil s : faults s = [] → faults (pop s) = [].
Proof. unfold pop. simpl. by intros ->. Qed.
Lemma next_fault_nil s : faults s = [] → next_fault s = None.
Proof. unfold next_fault. by intros ->. Qed.

Lemma pop_nil s : faults s = [] → pop s = s.
Proof. destruct s. unfold pop. simpl. by intros ->. Qed.

Lemma pop_set_stdout t s : pop (set_stdout t s) = set_stdout t (pop s).
Proof. by destruct s. Qed.

(** The existence test, by what the environment does to it. *)
Lemma exists_ok (p : path) (s : state) :
  next_fault s = None →
  exists_ p s = (Return (bool_decide (is_Some (stat p s))), pop s).
Proof. unfold exists_. by intros ->. Qed.

Lemma exists_nil (p : path) (s : state) :
  faults s = [] →
  exists_ p s = (Return (bool_decide (is_Some (stat p s))), s).
Proof.
  intros Hf. rewrite exists_ok by by apply next_fault_nil.
  by rewrite pop_nil.
Qed.

Lemma exists_raises (p : path) (s : state) (e : exn) :
  next_fault s = Some e → ignored_by_exists e = false →
  exists_ p s = (Raise e, pop s).
Proof. unfold exists_. by intros -> ->. Qed.

Create Rewrite HintDb frame.
#[global] Hint Rewrite stat_pop stat_set_stdout stat_set_stdin stat_set_faults
  stat_set_verbose stat_set_env_restored stat_set_env_has_credentials
  next_fault_set_stdout next_fault_set_stdin next_fault_set_home
  next_fault_set_verbose next_fault_set_env_restored
  next_fault_set_env_has_credentials
  home_pop stdout_pop stdin_pop os_pop env_restored_pop
  env_has_credentials_pop : frame.

(** Unfold the monad and the primitives of the machine. *)
Ltac unfold_m :=
  cbv beta delta [bind ret raise get modify try_except io print input
                  sleep subprocess read_text write_text append_text mkdir
                  shutil_move shutil_copy2
                  print_status print_success print_error print_warning
                  print_info print_header].

(** Run the script up to the next file operation or check. *)
Ltac exec :=
  cbv beta delta [bind ret raise get modify try_except print input
                  sleep write_text append_text mkdir shutil_move shutil_copy2
                  print_status print_success print_error print_warning
                  print_info print_header];
  simpl.

Ltac frame := autorewrite with frame in *; simpl in *.

(** *** Files *)

Lemma stat_env_file (s : state) (n : node) :
  stat env_file s = Some n ↔
  ∃ d, home s !! "StitchKit" = Some (Dir d) ∧ d !! ".env" = Some n.
Proof.
  unfold stat, env_file. simpl.
  destruct (home s !! "StitchKit") as [[c|d]|].
  - split; [done | by intros (d & Hd & _)].
  - destruct (d !! ".env") as [m|] eqn:E; split.
    + intros H. exists d. by simplify_eq.
    + intros (d' & Hd & H). by simplify_eq.
    + done.
    + intros (d' & Hd & H). by simplify_eq.
  - split; [done | by intros (d & Hd & _)].
Qed.

Lemma read_text_eq (p : path) (s : state) :
  read_text p s =
  match next_fault s with
  | Some e => (Raise e, pop s)
  | None =>
      match stat p s with
      | Some (File content) => (Return content, pop s)
      | Some (Dir _) => (Raise IsADirectoryError, pop s)
      | None => (Raise (no_parent p (home s)), pop s)
      end
  end.
Proof.
  unfold_m. destruct (next_fault s); [done|]. unfold stat. frame.
  by destruct (node_at (Dir (home s)) p) as [[]|].
Qed.

Lemma fs_update_eq (f : gmap string node → exn + gmap string node) (s : state) :
  fs_update f s =
  match next_fault s with
  | Some e => (Raise e, pop s)
  | None =>
      match f (home s) with
      | inl e => (Raise e, pop s)
      | inr h' => (Return (), set_home h' (pop s))
      end
  end.
Proof.
  unfold fs_update. unfold_m. destruct (next_fault s); [done|]. frame.
  by destruct (f (home s)).
Qed.

Lemma check_env_credentials_eq (s : state) :
  check_env_credentials s =
  match next_fault s with
  | Some e =>
      if ignored_by_exists e then (Return false, pop s) else (Raise e, pop s)
  | None =>
      match stat env_file s with
      | None => (Return false, pop s)
      | Some n =>
          match next_fault (pop s), n with
          | Some e, _ => if is_Exception e then (Return false, pop (pop s))
                         else (Raise e, pop (pop s))
          | None, File content =>
              (Return (credentials_in content), pop (pop s))
          | None, Dir _ => (Return false, pop (pop s))
          end
      end
  end.
Proof.
  unfold check_env_credentials.
  cbv beta delta [bind ret get try_except]. unfold exists_ at 1.
  destruct (next_fault s) as [e|] eqn:Hs.
  { by destruct (ignored_by_exists e). }
  destruct (stat env_file s) as [n|] eqn:Hn.
  - rewrite bool_decide_eq_true_2 by eauto. simpl.
    rewrite read_text_eq, stat_pop, Hn.
    destruct (next_fault (pop s)) as [e|]; [done|]. by destruct n.
  - rewrite bool_decide_eq_false_2 by (by intros [? ?]). done.
Qed.

(** Without failures the check reads the file and uses up nothing. *)
Lemma check_env_credentials_nil (s : state) :
  faults s = [] →
  check_env_credentials s =
  (Return match stat env_file s with
          | Some (File content) => credentials_in content
          | _ => false
          end, s).
Proof.
  intros Hf. rewrite check_env_credentials_eq.
  rewrite !pop_nil, next_fault_nil by done.
  by destruct (stat env_file s) as [[]|].
Qed.

(** ** The credential check on the file *)

(** C1. For every configuration text: when the file holds that text and can
    be read (neither the existence test nor the read fails),
    [check_env_credentials] returns true if and only if each of the three
    required fields has ['NAME='] somewhere in the text and its placeholder
    literal nowhere in it. *)
Theorem check_env_credentials_iff (s : state) (content : string) :
  stat env_file s = Some (File content) →
  next_fault s = None → next_fault (pop s) = None →
  ∃ b, (check_env_credentials s).1 = Return b ∧
       (b = true ↔ Forall (field_filled content) required_fields).
Proof.
  intros Hfile Hok Hread. exists (credentials_in content).
  split; [|apply credentials_in_spec].
  by rewrite check_env_credentials_eq, Hfile, Hok, Hread.
Qed.

(** C7. The check swallows a failing read, not a failing existence test.
    When [Path.exists()] returns, and the configuration file does not exist
    or reading it fails, [check_env_credentials] returns false as for an
    incomplete file: no exception leaves it, nothing is printed and no file
    changes.  But the existence test stands before the [try]: when it
    raises, as it does with [PermissionError] for an installation directory
    that cannot be searched, the exception leaves the check. *)
Theorem check_env_credentials_surfaces_error (s : state) :
  (∀ e, next_fault s = Some e → ignored_by_exists e = false →
        check_env_credentials s = (Raise e, pop s)) ∧
  ((∃ b, (exists_ env_file s).1 = Return b) →
   stat env_file s = None ∨ read_fails env_file (pop s) →
   ∃ s', check_env_credentials s = (Return false, s') ∧
         stdout s' = stdout s ∧ home s' = home s).
Proof.
  rewrite check_env_credentials_eq. unfold read_fails, exists_.
  rewrite read_text_eq, stat_pop. split.
  - by intros e -> ->.
  - destruct (next_fault s) as [e0|].
    { destruct (ignored_by_exists e0); [eauto|]. by intros [b Hb]. }
    intros _. destruct (stat env_file s) as [n|] eqn:Hn; [|eauto].
    intros [Hnone | (e & He & Hcls)]; [done|].
    destruct (next_fault (pop s)) as [e'|]; simpl in He.
    + simplify_eq. rewrite Hcls. eauto.
    + destruct n; simplify_eq. eauto.
Qed.

(** C10. The check matches substrings of the whole text.  (a) Fields with an
    empty value count as present: a text in which each required name is
    followed by [=] and the end of the line, and which holds no placeholder
    literal, is complete.  (b) A placeholder literal anywhere in the text,
    such as in a comment, makes the text incomplete, whatever the
    assignments hold. *)
Theorem credentials_in_substring_only (content : string) :
  (Forall (λ f, assigned_empty content f ∧ ¬ Text.occurs f.2 content)
          required_fields →
   credentials_in content = true) ∧
  (Exists (λ f, Text.occurs f.2 content) required_fields →
   credentials_in content = false).
Proof.
  split.
  - intros H. apply credentials_in_spec.
    eapply Forall_impl; [exact H|]. intros f [He Hp]. split; [|done].
    eapply occurs_app; [|exact He].
    exists EmptyString, Text.nl. by rewrite string_app_assoc.
  - intros H. destruct (credentials_in content) eqn:E; [|done].
    apply credentials_in_spec in E.
    apply Exists_exists in H as (f & Hf & Hocc).
    rewrite Forall_forall in E. by destruct (E f Hf) as [_ Hno].
Qed.

Lemma credentials_in_substring_only_witness :
  credentials_in empty_values = true ∧
  credentials_in commented_placeholder = false.
Proof.
  split.
  - apply (proj1 (credentials_in_substring_only empty_values)).
    repeat constructor; try (apply contains_occurs; reflexivity);
      apply contains_not_occurs; reflexivity.
  - apply (proj2 (credentials_in_substring_only commented_placeholder)).
    apply Exists_cons_hd. apply contains_occurs. reflexivity.
Defined.

(** ** Finding the latest backup *)

Lemma compare_app_prefix (p a b : string) :
  String.compare (p +:+ a) (p +:+ b) = String.compare a b.
Proof.
  induction p as [|c p IH]; [done|].
  rewrite !string_app_cons. simpl.
  unfold Ascii.compare. by rewrite N.compare_refl.
Qed.

Lemma le_app_prefix (p a b : string) :
  String.le (p +:+ a) (p +:+ b) ↔ String.le a b.
Proof. unfold String.le, String.leb. by rewrite compare_app_prefix. Qed.

Lemma elem_of_glob (prefix name : string) (listing : list string) :
  name ∈ glob prefix listing ↔
  name ∈ listing ∧ ∃ suffix, name = prefix +:+ suffix.
Proof.
  unfold glob. rewrite list_elem_of_filter, prefix_occurs. tauto.
Qed.

Lemma glob_Permutation (prefix : string) (l l' : list string) :
  l ≡ₚ l' → glob prefix l ≡ₚ glob prefix l'.
Proof. unfold glob. by intros ->. Qed.

Lemma sorted_Sorted (names : list string) : Sorted String.le (sorted names).
Proof. apply Sorted_merge_sort. apply _. Qed.

Lemma sorted_Permutation (names : list string) : sorted names ≡ₚ names.
Proof. apply merge_sort_Permutation. Qed.

(** Listings with the same entries sort to the same list. *)
Lemma sorted_unique (l l' : list string) :
  l ≡ₚ l' → sorted l = sorted l'.
Proof.
  intros H. apply (Sorted_unique String.le); try apply sorted_Sorted.
  by rewrite !sorted_Permutation.
Qed.

(** The last name of a sorted list is its greatest. *)
Lemma last_sorted_greatest (l : list string) (b : string) :
  Sorted String.le l → last l = Some b →
  ∀ name, name ∈ l → String.le name b.
Proof.
  intros Hs%Sorted_StronglySorted; [|apply _]. intros Hl name Hin.
  apply last_Some in Hl as [l' ->].
  apply elem_of_app in Hin as [Hin | Hin%list_elem_of_singleton].
  - apply (StronglySorted_app_1_elem_of String.le l' [b]); [done..|].
    by apply list_elem_of_singleton.
  - by subst.
Qed.

Lemma latest_backup_of_greatest (listing : list string) (b : string) :
  latest_backup_of listing = Some b →
  b ∈ glob backup_pattern listing ∧
  ∀ name, name ∈ glob backup_pattern listing → String.le name b.
Proof.
  unfold latest_backup_of. intros Hl. split.
  - rewrite <- (sorted_Permutation (glob backup_pattern listing)).
    by eapply last_Some_elem_of.
  - intros name Hin.
    eapply last_sorted_greatest; [apply sorted_Sorted | exact Hl |].
    by rewrite sorted_Permutation.
Qed.

Lemma latest_backup_of_None (listing : list string) :
  latest_backup_of listing = None ↔ glob backup_pattern listing = [].
Proof.
  unfold latest_backup_of. rewrite last_None. split.
  - intros H. apply Permutation_nil_r. by rewrite <- H, sorted_Permutation.
  - by intros ->.
Qed.

(** C4. The search for the latest backup keeps the entries of the listing
    whose name matches [StitchKit.backup-*], sorts them by name and takes
    the last: the result is the greatest matching name, whatever the order
    of the listing; for three backups with timestamps [t1 < t2 < t3] it is
    the one of [t3]; without any backup it is [None], and then
    [restore_env_from_backup] returns false without asking anything. *)
Theorem latest_backup_of_spec (listing : list string) :
  let backups := glob backup_pattern listing in
  (∀ name, name ∈ backups ↔
           name ∈ listing ∧ ∃ stamp, name = "StitchKit.backup-" +:+ stamp) ∧
  Sorted String.le (sorted backups) ∧ sorted backups ≡ₚ backups ∧
  latest_backup_of listing = last (sorted backups) ∧
  (∀ b, latest_backup_of listing = Some b →
        b ∈ backups ∧ ∀ name, name ∈ backups → String.le name b) ∧
  (∀ listing', listing' ≡ₚ listing →
               latest_backup_of listing' = latest_backup_of listing) ∧
  (∀ t1 t2 t3, name_lt t1 t2 → name_lt t2 t3 →
     backups ≡ₚ [backup_pattern +:+ t1; backup_pattern +:+ t2;
                 backup_pattern +:+ t3] →
     latest_backup_of listing = Some (backup_pattern +:+ t3)) ∧
  (backups = [] →
   latest_backup_of listing = None ∧
   ∀ s, listdir s = listing → restore_env_from_backup s = (Return false, s)).
Proof.
  intros backups. split_and!.
  - intros name. apply elem_of_glob.
  - apply sorted_Sorted.
  - apply sorted_Permutation.
  - done.
  - apply latest_backup_of_greatest.
  - intros listing' Hp. unfold latest_backup_of.
    by rewrite (sorted_unique _ _ (glob_Permutation _ _ _ Hp)).
  - intros t1 t2 t3 [H12 _] [H23 _] Hp. unfold latest_backup_of.
    fold backups. rewrite (sorted_unique _ _ Hp).
    assert (sorted [backup_pattern +:+ t1; backup_pattern +:+ t2;
                    backup_pattern +:+ t3]
            = [backup_pattern +:+ t1; backup_pattern +:+ t2;
               backup_pattern +:+ t3]) as ->; [|done].
    apply (Sorted_unique String.le);
      [apply sorted_Sorted | | apply sorted_Permutation].
    repeat constructor; by apply le_app_prefix.
  - intros H. split; [by apply latest_backup_of_None|].
    intros s Hs. unfold restore_env_from_backup.
    cbv beta delta [bind get]. rewrite Hs.
    by rewrite (proj2 (latest_backup_of_None listing) H).
Qed.

Lemma latest_backup_of_spec_witness :
  latest_backup_of three_backups = Some "StitchKit.backup-20250101-000000".
Proof.
  destruct (latest_backup_of_spec three_backups)
    as (_ & _ & _ & _ & _ & _ & H & _).
  apply (H "20231130-235959" "20240615-101500" "20250101-000000").
  - split; [by vm_compute | by vm_compute].
  - split; [by vm_compute | by vm_compute].
  - vm_compute. symmetry.
    apply (Permutation_cons_append
             [ "StitchKit.backup-20240615-101500";
               "StitchKit.backup-20250101-000000" ]
             "StitchKit.backup-20231130-235959").
Defined.

(** ** Backing up the installation *)

Lemma backup_name_ne (s : state) : "StitchKit" ≠ backup_name s.
Proof. unfold backup_name, backup_pattern. intros H. discriminate H. Qed.

Lemma moved_exn (src dst : string) (h : gmap string node) (e : exn) :
  moved src dst h = inl e → is_Exception e = true.
Proof.
  unfold moved. intros H.
  repeat (match type of H with
          | context [match ?x with _ => _ end] => destruct x
          end); by simplify_eq.
Qed.

Lemma moved_inr (src dst : string) (h h' : gmap string node) :
  src ≠ dst → moved src dst h = inr h' →
  h' !! src = None ∧ is_Some (h' !! dst).
Proof.
  unfold moved. intros Hne H.
  repeat (match type of H with
          | context [match ?x with _ => _ end] => destruct x
          end); simplify_eq;
    by rewrite lookup_insert_ne, lookup_delete_eq, lookup_insert_eq by done.
Qed.

Lemma moved_missing (dst : string) (h : gmap string node) (src : string) :
  h !! src = None → ∃ e, moved src dst h = inl e.
Proof.
  unfold moved. intros ->.
  destruct (h !! dst) as [[c|d]|]; eauto.
  destruct (d !! src); eauto.
Qed.

(** Close a goal on two machines that differ by what was printed. *)
Ltac same_state :=
  unfold pop, set_stdout, set_home, set_faults, set_stdin, set_env_restored,
    set_env_has_credentials; simpl;
  rewrite <- ?app_assoc; simpl; reflexivity.

Lemma backup_existing_cases (s : state) :
  ∃ out,
    match next_fault s, moved "StitchKit" (backup_name s) (home s) with
    | Some e, _ =>
        backup_existing s =
        (if is_Exception e then Return None else Raise e,
         set_stdout (stdout s ++ out) (pop s))
    | None, inl e =>
        backup_existing s = (Return None, set_stdout (stdout s ++ out) (pop s))
    | None, inr h' =>
        backup_existing s =
        (Return (Some (backup_name s)),
         set_stdout (stdout s ++ out) (set_home h' (pop s)))
    end.
Proof.
  unfold backup_existing. exec.
  rewrite fs_update_eq. frame.
  destruct (next_fault s) as [e|].
  - destruct (is_Exception e) eqn:He; simpl; rewrite ?He; eexists; same_state.
  - destruct (moved "StitchKit" (backup_name s) (home s)) as [e|h'] eqn:Hm.
    + rewrite (moved_exn _ _ _ _ Hm). eexists; same_state.
    + simpl. eexists; same_state.
Qed.

Lemma stat_install_dir (s : state) : stat install_dir s = home s !! "StitchKit".
Proof. unfold stat, install_dir. simpl. by destruct (home s !! "StitchKit"). Qed.

(** Find the events printed between two machines. *)
Ltac solve_out :=
  eexists; simpl; rewrite <- ?app_assoc; reflexivity.

(** The state in which the user has answered the question about a backup. *)
Lemma check_existing_installation_asked (s : state) (answer : string)
    (rest : list key) :
  is_Some (home s !! "StitchKit") → stdin s = Enter answer :: rest →
  next_fault s = None → next_fault (pop s) = None →
  ∃ asked,
    check_existing_installation s =
    (if bool_decide (Text.lower answer = "y")
     then bind backup_then_restore (λ _, ret true) asked
     else (Return true, asked)) ∧
    home asked = home s ∧ faults asked = faults (pop (pop s)) ∧
    os asked = os s ∧
    stdin asked = rest ∧
    env_restored asked = env_restored s ∧
    env_has_credentials asked = env_has_credentials s ∧
    (∃ out, stdout asked = stdout s ++ out) ∧
    last (stdout asked) = Some (Input backup_prompt).
Proof.
  intros Hdir Hin Hn1 Hn2. unfold check_existing_installation. exec.
  rewrite (exists_ok _ s Hn1). simpl.
  rewrite stat_install_dir, bool_decide_eq_true_2 by done. simpl.
  rewrite exists_ok by exact Hn2. simpl. frame.
  destruct (bool_decide (is_Some (stat env_file s))); simpl; rewrite Hin; simpl;
    rewrite eqb_lower_y;
    (eexists; split; [case_bool_decide; reflexivity|]);
    (do 6 (split; [reflexivity|])); (split; [solve_out | apply last_snoc]).
Qed.

(** C5. [backup_existing] returns the location of the new backup when the
    move succeeds.  When the move raises an exception of class [Exception],
    as it does when the installation directory is missing, it returns
    [None], no exception leaves it and no file has changed; the caller,
    [check_existing_installation], whose two existence tests come before
    the move, then returns as usual without asking about a restore. *)
Theorem backup_existing_outcomes (s : state) :
  let backup_dir := backup_name s in
  let attempt := (shutil_move "StitchKit" backup_dir s).1 in
  (attempt = Return () →
   ∃ s', backup_existing s = (Return (Some backup_dir), s') ∧
         home s' !! "StitchKit" = None ∧ is_Some (home s' !! backup_dir)) ∧
  (∀ e, attempt = Raise e → is_Exception e = true →
   ∃ s', backup_existing s = (Return None, s') ∧ home s' = home s) ∧
  (home s !! "StitchKit" = None → next_fault s ≠ Some KeyboardInterrupt →
   ∃ s', backup_existing s = (Return None, s') ∧ home s' = home s) ∧
  (∀ e answer rest,
     next_fault s = None → next_fault (pop s) = None →
     (shutil_move "StitchKit" backup_dir (pop (pop s))).1 = Raise e →
     is_Exception e = true →
     is_Some (home s !! "StitchKit") →
     stdin s = Enter answer :: rest → Text.lower answer = "y" →
     ∃ s', check_existing_installation s = (Return true, s') ∧
           home s' = home s ∧ stdin s' = rest ∧
           env_restored s' = env_restored s).
Proof.
  intros backup_dir attempt. subst attempt backup_dir.
  unfold shutil_move. rewrite fs_update_eq.
  destruct (backup_existing_cases s) as [out Hb].
  split_and!.
  - destruct (next_fault s); [done|].
    destruct (moved _ _ _) as [e|h'] eqn:Hm; [done|]. intros _.
    eexists. split; [exact Hb|]. simpl.
    by apply moved_inr in Hm; [|apply backup_name_ne].
  - intros e He Hcls. destruct (next_fault s) as [e'|].
    + simpl in He. simplify_eq. rewrite Hcls in Hb. eauto.
    + destruct (moved _ _ _) as [e'|h']; [|done]. eauto.
  - intros Hnone Hki. destruct (next_fault s) as [e'|].
    + destruct e'; try done; eauto.
    + destruct (moved_missing (backup_name s) _ _ Hnone) as [e' Hm].
      rewrite Hm in Hb. eauto.
  - intros e answer rest Hn1 Hn2 He Hcls Hdir Hin Hy.
    destruct (check_existing_installation_asked s answer rest Hdir Hin Hn1 Hn2)
      as (asked & Hc & Hhome & Hfaults & Hos & Hstdin & Hr & _ & _ & _).
    rewrite bool_decide_eq_true_2 in Hc by done. rewrite Hc.
    destruct (backup_existing_cases asked) as [out' Hb'].
    unfold backup_then_restore. cbv beta delta [bind ret].
    assert (next_fault asked = next_fault (pop (pop s))) as Hnf
      by (unfold next_fault; by rewrite Hfaults).
    assert (backup_name asked = backup_name s) as Hbn
      by (unfold backup_name; by rewrite Hos).
    rewrite Hnf, Hbn, Hhome in Hb'.
    rewrite fs_update_eq in He. rewrite !home_pop in He.
    destruct (next_fault (pop (pop s))) as [e'|].
    + simpl in He. simplify_eq. rewrite Hcls in Hb'. rewrite Hb'.
      eexists. split; [done|]. by frame.
    + destruct (moved _ _ _) as [e'|h']; [|done]. rewrite Hb'.
      eexists. split; [done|]. by frame.
Qed.

(** ** Restoring the configuration *)

Lemma elem_of_listdir (s : state) (name : string) :
  name ∈ listdir s ↔ is_Some (home s !! name).
Proof.
  unfold listdir. rewrite list_elem_of_fmap. split.
  - intros ([k n] & Hk & H). simpl in Hk. subst k.
    apply elem_of_map_to_list in H. by exists n.
  - intros [n H]. exists (name, n). split; [done|].
    by apply elem_of_map_to_list.
Qed.

Lemma stat_child (s : state) (dir name : string) :
  stat [dir; name] s =
  match home s !! dir with
  | Some (Dir d) => d !! name
  | _ => None
  end.
Proof.
  unfold stat. simpl. destruct (home s !! dir) as [[c|d]|]; try done.
  by destruct (d !! name).
Qed.

Lemma latest_backup_of_name (listing : list string) (b : string) :
  latest_backup_of listing = Some b →
  b ∈ listing ∧ (∃ stamp, b = "StitchKit.backup-" +:+ stamp) ∧ b ≠ "StitchKit".
Proof.
  intros [Hin _]%latest_backup_of_greatest.
  apply elem_of_glob in Hin as [Hin [stamp ->]].
  split_and!; [done | by exists stamp | intros H; discriminate H].
Qed.

Lemma copied_into_fresh (h : gmap string node) (b content : string) :
  b ≠ "StitchKit" →
  node_at (Dir h) [b; ".env"] = Some (File content) →
  copied [b; ".env"] env_file (<["StitchKit" := Dir ∅]> h) =
  inr (<["StitchKit" := Dir {[".env" := File content]}]> h).
Proof.
  intros Hne Hb. unfold copied, placed, env_file. simpl in *.
  rewrite lookup_insert_ne by done.
  destruct (h !! b) as [[c|d]|]; try done.
  destruct (d !! ".env") as [n|] eqn:Hd; [|done]. simplify_eq.
  rewrite lookup_insert_eq. simpl. rewrite lookup_empty. simpl.
  rewrite lookup_insert_eq. simpl. rewrite lookup_empty.
  by rewrite insert_insert_eq.
Qed.

(** Use that no operation fails any more. *)
Ltac no_faults H :=
  repeat (progress (unfold next_fault, pop; simpl; rewrite ?H; simpl)).

Lemma restore_env_from_backup_accepted (s : state) (b content answer : string)
    (rest : list key) :
  latest_backup_of (listdir s) = Some b →
  stat [b; ".env"] s = Some (File content) →
  home s !! "StitchKit" = None →
  stdin s = Enter answer :: rest → Text.lower answer = "y" →
  faults s = [] →
  ∃ s2, restore_env_from_backup s = (Return true, s2) ∧
        home s2 = <["StitchKit" := Dir {[".env" := File content]}]> (home s) ∧
        env_restored s2 = true ∧
        env_has_credentials s2 = credentials_in content ∧
        faults s2 = [] ∧ stdin s2 = rest ∧ os s2 = os s ∧
        ∃ out, stdout s2 = stdout s ++ out.
Proof.
  intros Hl Hb Hnone Hin Hy Hf.
  destruct (latest_backup_of_name _ _ Hl) as (_ & _ & Hne).
  unfold restore_env_from_backup. exec. rewrite Hl.
  rewrite exists_nil by done. simpl. rewrite Hb.
  rewrite bool_decide_eq_true_2 by eauto. simpl. rewrite Hin. simpl.
  rewrite eqb_lower_y, bool_decide_eq_true_2 by done.
  unfold restore_config. exec.
  rewrite fs_update_eq. frame. rewrite next_fault_nil by done.
  unfold made_dir. rewrite Hnone. simpl.
  rewrite fs_update_eq. simpl. no_faults Hf.
  rewrite (copied_into_fresh _ _ content Hne Hb). simpl.
  rewrite check_env_credentials_eq. no_faults Hf.
  unfold stat, env_file. simpl. rewrite lookup_insert_eq. simpl.
  rewrite lookup_singleton_eq. simpl.
  eexists. split; [reflexivity|]. simpl.
  do 6 (split; [by rewrite ?Hf|]). solve_out.
Qed.

Lemma restore_env_from_backup_no_env (s : state) (b : string) :
  latest_backup_of (listdir s) = Some b →
  stat [b; ".env"] s = None → next_fault s = None →
  restore_env_from_backup s = (Return false, pop s).
Proof.
  intros Hl Hb Hn. unfold restore_env_from_backup. exec. rewrite Hl.
  rewrite exists_ok by done. simpl. rewrite Hb.
  by rewrite bool_decide_eq_false_2 by (by intros [? ?]).
Qed.

Lemma backup_existing_Some (s s1 : state) (b0 : string) :
  backup_existing s = (Return (Some b0), s1) →
  b0 = backup_name s ∧
  home s1 !! "StitchKit" = None ∧ is_Some (home s1 !! b0) ∧
  faults s1 = tail (faults s) ∧ stdin s1 = stdin s ∧ os s1 = os s ∧
  env_restored s1 = env_restored s ∧
  env_has_credentials s1 = env_has_credentials s ∧
  ∃ out, stdout s1 = stdout s ++ out.
Proof.
  destruct (backup_existing_cases s) as [out Hb].
  destruct (next_fault s) as [e|].
  { rewrite Hb. destruct (is_Exception e); intros H; discriminate H. }
  destruct (moved _ _ _) as [e|h'] eqn:Hm; rewrite Hb; intros H;
    [discriminate H|].
  injection H as <- <-. simpl.
  apply moved_inr in Hm as [? ?]; [|apply backup_name_ne].
  split_and!; try done. by exists out.
Qed.

(** C3. After a backup has been made in this run, the restore step picks
    the greatest name among all entries of the home directory that match
    [StitchKit.backup-*].  That name is at least the name of the backup just
    made and can be another one.  When the user is offered a restore, the
    backup read is a directory and it is this greatest one: on acceptance
    its configuration becomes the configuration of the installation.  (The
    existence test on the configuration of the backup is a file operation
    and is taken not to fail.) *)
Theorem restore_reads_latest_backup :
  (∀ s s1 b0,
     backup_existing s = (Return (Some b0), s1) →
     ∃ b, latest_backup_of (listdir s1) = Some b ∧
          b ∈ listdir s1 ∧ (∃ stamp, b = "StitchKit.backup-" +:+ stamp) ∧
          (∀ name stamp, name ∈ listdir s1 →
                         name = "StitchKit.backup-" +:+ stamp →
                         String.le name b) ∧
          String.le b0 b ∧
          (stat [b; ".env"] s1 = None → next_fault s1 = None →
           restore_env_from_backup s1 = (Return false, pop s1)) ∧
          (∀ n, stat [b; ".env"] s1 = Some n →
                ∃ d, home s1 !! b = Some (Dir d)) ∧
          (∀ content answer rest,
             stat [b; ".env"] s1 = Some (File content) →
             stdin s1 = Enter answer :: rest → Text.lower answer = "y" →
             faults s1 = [] →
             ∃ s2, restore_env_from_backup s1 = (Return true, s2) ∧
                   stat env_file s2 = Some (File content))) ∧
  (∃ s s1 b0 b,
     backup_existing s = (Return (Some b0), s1) ∧
     latest_backup_of (listdir s1) = Some b ∧ b ≠ b0).
Proof.
  split.
  - intros s s1 b0 (-> & Hnone & Hsome & _)%backup_existing_Some.
    assert (backup_name s ∈ glob backup_pattern (listdir s1)) as Hin.
    { apply elem_of_glob. split; [by apply elem_of_listdir|].
      by exists (now (os s)). }
    destruct (latest_backup_of (listdir s1)) as [b|] eqn:Hl.
    2: { apply latest_backup_of_None in Hl. rewrite Hl in Hin.
         by apply elem_of_nil in Hin. }
    exists b. destruct (latest_backup_of_greatest _ _ Hl) as [Hb Hmax].
    destruct (latest_backup_of_name _ _ Hl) as (Hbin & Hstamp & Hne).
    split_and!; try done.
    + intros name stamp Hname ->. apply Hmax, elem_of_glob. eauto.
    + by apply Hmax.
    + by apply restore_env_from_backup_no_env.
    + intros n. rewrite stat_child.
      destruct (home s1 !! b) as [[c|d]|]; [done | eauto | done].
    + intros content answer rest Hfile Hstdin Hy Hf.
      destruct (restore_env_from_backup_accepted s1 b content answer rest)
        as (s2 & Hr & Hhome & _); try done.
      exists s2. split; [done|].
      apply stat_env_file. exists {[".env" := File content]}.
      rewrite Hhome, lookup_insert_eq. split; [done|].
      apply lookup_singleton_eq.
  - exists (machine stale_backup_home [] []).
    exists (backup_existing (machine stale_backup_home [] [])).2.
    exists "StitchKit.backup-20240102-030405".
    exists "StitchKit.backup-20250101-000000".
    split_and!; [by vm_compute | by vm_compute | intros H; discriminate H].
Qed.

(** ** Ensuring a configuration file *)

Lemma put_node_at (p : path) (n t t' : node) :
  p ≠ [] → put p (Some n) t = Some t' → node_at t' p = Some n.
Proof.
  revert t t'. induction p as [|x p IH]; [done|]. intros t t' _ H.
  destruct t as [c|d]; [done|]. simpl in H. destruct p as [|y p].
  - simplify_eq. simpl. by rewrite lookup_insert_eq.
  - destruct (d !! x) as [c|]; [|done].
    destruct (put (y :: p) (Some n) c) as [c'|] eqn:Hc; [|done].
    simpl in H. simplify_eq.
    change (node_at (Dir (<[x:=c']> d)) (x :: y :: p))
      with (match <[x:=c']> d !! x with
            | Some c0 => node_at c0 (y :: p)
            | None => None
            end).
    rewrite lookup_insert_eq. by apply (IH c).
Qed.

Lemma node_at_app (t n : node) (p q : path) :
  node_at t (p ++ q) = Some n → is_Some (node_at t p).
Proof.
  revert t. induction p as [|x p IH]; intros t H; [by eexists|].
  simpl in *. destruct t as [c|d]; [done|].
  destruct (d !! x); [by apply IH | done].
Qed.

Lemma placed_exists (p q : path) (n : node) (h h' : gmap string node) :
  p ++ q ≠ [] → placed (p ++ q) n h = inr h' → is_Some (node_at (Dir h') p).
Proof.
  unfold placed. intros Hne H.
  destruct (put (p ++ q) (Some n) (Dir h)) as [[c|d]|] eqn:Hp; simplify_eq.
  apply put_node_at in Hp; [|done]. by eapply node_at_app.
Qed.

Lemma copied_exists (src dst : path) (h h' : gmap string node) :
  dst ≠ [] → copied src dst h = inr h' → is_Some (node_at (Dir h') dst).
Proof.
  unfold copied. intros Hne H.
  destruct (node_at (Dir h) src) as [[content|]|]; try done.
  destruct (node_at (Dir h) dst) as [[c|d]|] eqn:Hd; cbv zeta in H.
  - rewrite Hd in H.
    eapply (placed_exists dst []); rewrite app_nil_r; [done | exact H].
  - destruct (node_at (Dir h) (dst ++ _)) as [[]|]; try done;
      (eapply placed_exists; [|exact H]); by destruct dst.
  - rewrite Hd in H.
    eapply (placed_exists dst []); rewrite app_nil_r; [done | exact H].
Qed.

(** Case analysis on what the next step of the script meets. *)
Ltac case_step :=
  match goal with
  | |- context [match next_fault ?s with _ => _ end] =>
      destruct (next_fault s) as [?e|] eqn:?Hnf
  | |- context [match made_dir ?a ?h with _ => _ end] =>
      destruct (made_dir a h) as [?e|?h'] eqn:?Hmk
  | |- context [match copied ?a ?b ?h with _ => _ end] =>
      destruct (copied a b h) as [?e|?h'] eqn:?Hcp
  | |- context [match written ?a ?b ?h with _ => _ end] =>
      destruct (written a b h) as [?e|?h'] eqn:?Hwr
  | |- context [match appended ?a ?b ?h with _ => _ end] =>
      destruct (appended a b h) as [?e|?h'] eqn:?Hap
  | |- context [match stat ?p ?s with _ => _ end] =>
      destruct (stat p s) as [[?c|?d]|] eqn:?Hst
  | |- context [if is_Exception ?e then _ else _] =>
      destruct (is_Exception e) eqn:?Hcls
  | |- context [if ignored_by_exists ?e then _ else _] =>
      destruct (ignored_by_exists e) eqn:?Hign
  end; simpl.

Lemma restore_env_from_backup_true (s0 s : state) :
  restore_env_from_backup s0 = (Return true, s) →
  env_restored s = true ∧ is_Some (stat env_file s).
Proof.
  unfold restore_env_from_backup. exec.
  destruct (latest_backup_of (listdir s0)) as [b|]; [|intros H; by simplify_eq].
  unfold exists_ at 1.
  repeat case_step; try (intros H; by simplify_eq).
  destruct (bool_decide _); simpl; [|intros H; by simplify_eq].
  destruct (stdin s0) as [|[answer|] rest]; simpl; try (intros H; by simplify_eq).
  destruct (String.eqb _ _); [|intros H; by simplify_eq].
  unfold restore_config. exec.
  rewrite fs_update_eq. frame.
  repeat case_step; try (intros H; by simplify_eq).
  rewrite fs_update_eq. frame.
  repeat case_step; try (intros H; by simplify_eq).
  match goal with
  | Hcp : copied _ _ _ = inr ?h |- _ =>
      assert (is_Some (node_at (Dir h) env_file)) as Hex
        by (by eapply copied_exists)
  end.
  rewrite check_env_credentials_eq. frame.
  repeat case_step; intros H; simplify_eq; simpl; done.
Qed.

(** With the file there, one existence test is made and nothing else:
    the test of line 302 when the flag is set, the test of line 306 when it
    is not. *)
Lemma setup_environment_present (s : state) (n : node) :
  stat env_file s = Some n → next_fault s = None →
  setup_environment s = (Return true, pop s).
Proof.
  intros H Hn. unfold setup_environment. exec.
  destruct (env_restored s); simpl; rewrite exists_ok by done; simpl;
    rewrite H, bool_decide_eq_true_2 by eauto; reflexivity.
Qed.

Lemma setup_environment_present_nil (s : state) (n : node) :
  stat env_file s = Some n → faults s = [] →
  setup_environment s = (Return true, s).
Proof.
  intros H Hf. rewrite (setup_environment_present s n H).
  - by rewrite pop_nil.
  - by apply next_fault_nil.
Qed.

Lemma written_env (h d : gmap string node) (text : string) :
  h !! "StitchKit" = Some (Dir d) → d !! ".env" = None →
  written env_file text h =
  inr (<["StitchKit" := Dir (<[".env" := File text]> d)]> h).
Proof.
  intros Hd He. unfold written, placed, env_file. simpl.
  by rewrite Hd, He.
Qed.

(** C6, as the code has it.  The file decides, not the flag.  When the
    configuration file exists, restored or not, nothing is written and the
    file keeps its content, whatever it is.  When it does not exist the
    fixed template is written, also when the restore flag is set: the guard
    of line 302 asks for the flag and for the file. *)
Theorem setup_environment_branches (s : state) :
  (∀ n, stat env_file s = Some n → next_fault s = None →
        ∃ s', setup_environment s = (Return true, s') ∧
              home s' = home s ∧ stdout s' = stdout s ∧
              stat env_file s' = Some n) ∧
  (∀ d, stat env_file s = None →
        home s !! "StitchKit" = Some (Dir d) → faults s = [] →
        ∃ s', setup_environment s = (Return true, s') ∧
              home s' =
              <["StitchKit" := Dir (<[".env" := File env_content]> d)]> (home s) ∧
              env_restored s' = env_restored s).
Proof.
  split.
  - intros n Hn Hnf. rewrite (setup_environment_present s n Hn Hnf).
    exists (pop s). by rewrite stat_pop.
  - intros d Hnone Hd Hf.
    assert (d !! ".env" = None) as He.
    { unfold env_file in Hnone. by rewrite stat_child, Hd in Hnone. }
    unfold setup_environment, create_basic_env. exec.
    destruct (env_restored s) eqn:Hr; simpl.
    + rewrite exists_nil by done. simpl. rewrite Hnone.
      rewrite bool_decide_eq_false_2 by (by intros [? ?]). simpl.
      rewrite exists_nil by done. simpl. rewrite Hnone.
      rewrite bool_decide_eq_false_2 by (by intros [? ?]). simpl.
      rewrite fs_update_eq, next_fault_nil by done.
      rewrite (written_env _ d) by done.
      simpl. eauto.
    + rewrite exists_nil by done. simpl. rewrite Hnone.
      rewrite bool_decide_eq_false_2 by (by intros [? ?]). simpl.
      rewrite fs_update_eq, next_fault_nil by done.
      rewrite (written_env _ d) by done.
      simpl. eauto.
Qed.

(** C6, as the specification states it, fails: with the restore flag set
    and no configuration file, the template is written. *)
Lemma branches_as_stated_fails : ¬ branches_as_stated.
Proof.
  intros H.
  specialize (H restored_flag_only eq_refl (ex_intro _ ∅ eq_refl)).
  change (home (setup_environment restored_flag_only).2
          = home restored_flag_only) in H.
  assert (stat env_file (setup_environment restored_flag_only).2
          = Some (File env_content)) as Hnew by (vm_compute; reflexivity).
  rewrite (stat_same_home _ _ _ H) in Hnew.
  vm_compute in Hnew. discriminate Hnew.
Qed.

(** ** The three questions *)

Lemma check_env_credentials_set_stdout (t : list event) (s : state) :
  check_env_credentials (set_stdout t s) =
  ((check_env_credentials s).1, set_stdout t (check_env_credentials s).2).
Proof.
  rewrite !check_env_credentials_eq, !pop_set_stdout. frame.
  repeat case_step; reflexivity.
Qed.

Lemma check_env_credentials_frame (s : state) :
  let s' := (check_env_credentials s).2 in
  home s' = home s ∧ stdin s' = stdin s ∧ stdout s' = stdout s ∧
  os s' = os s ∧ env_restored s' = env_restored s ∧
  env_has_credentials s' = env_has_credentials s ∧
  (faults s = [] → faults s' = []).
Proof.
  rewrite check_env_credentials_eq.
  repeat case_step; split_and!; try reflexivity; try done;
    intros Hf; simpl; by rewrite Hf.
Qed.

Lemma restore_env_from_backup_asked (s : state) (b answer : string)
    (rest : list key) :
  latest_backup_of (listdir s) = Some b →
  is_Some (stat [b; ".env"] s) →
  stdin s = Enter answer :: rest → next_fault s = None →
  ∃ s1, asked restore_prompt rest s s1 ∧
        faults s1 = faults (pop s) ∧
        env_has_credentials s1 = env_has_credentials s ∧
        restore_env_from_backup s =
        if bool_decide (Text.lower answer = "y")
        then restore_config [b; ".env"] s1
        else (Return false, s1).
Proof.
  intros Hl Hb Hin Hn. unfold restore_env_from_backup, asked. exec.
  rewrite Hl. rewrite exists_ok by done. simpl.
  rewrite bool_decide_eq_true_2 by done. simpl. rewrite Hin. simpl.
  rewrite eqb_lower_y. eexists.
  split; [|split; [|split; [|case_bool_decide; reflexivity]]].
  - split; [apply last_snoc|]. split; [solve_out|]. by split_and!.
  - reflexivity.
  - reflexivity.
Qed.

Lemma check_existing_installation_asked' (s : state) (answer : string)
    (rest : list key) :
  is_Some (home s !! "StitchKit") → stdin s = Enter answer :: rest →
  next_fault s = None → next_fault (pop s) = None →
  ∃ s1, asked backup_prompt rest s s1 ∧
        faults s1 = faults (pop (pop s)) ∧
        env_has_credentials s1 = env_has_credentials s ∧
        check_existing_installation s =
        if bool_decide (Text.lower answer = "y")
        then bind backup_then_restore (λ _, ret true) s1
        else (Return true, s1).
Proof.
  intros Hdir Hin Hn1 Hn2.
  destruct (check_existing_installation_asked s answer rest Hdir Hin Hn1 Hn2)
    as (s1 & Hc & Hhome & Hfaults & Hos & Hstdin & Hr & Hec & Hout & Hlast).
  exists s1. unfold asked. by split_and!.
Qed.

Lemma final_steps_asked (s : state) (answer : string) (rest : list key) :
  env_has_credentials s = false →
  (check_env_credentials s).1 = Return false →
  stdin s = Enter answer :: rest →
  ∃ s1, asked configure_prompt rest s s1 ∧
        env_has_credentials s1 = false ∧
        (faults s = [] → faults s1 = []) ∧
        final_steps s =
        if bool_decide (Text.lower answer = "y")
        then guided_setup s1
        else show_manual_next_steps s1.
Proof.
  intros Hec Hchk Hin. unfold final_steps, asked. exec. rewrite Hec. simpl.
  rewrite check_env_credentials_set_stdout, Hchk.
  destruct (check_env_credentials_frame s)
    as (Hhome & Hstdin & Hout & Hos & Hr & _ & Hf).
  simpl. rewrite Hstdin, Hin. simpl. rewrite eqb_lower_y. eexists.
  split; [|split; [|split; [|case_bool_decide; reflexivity]]].
  - split; [apply last_snoc|]. split; [rewrite ?Hout; solve_out|]. by split_and!.
  - reflexivity.
  - exact Hf.
Qed.

(** C9. Each of the three questions (backup, restore, configure now) takes
    the answer as a yes exactly when its lower case is ["y"], that is for
    ["y"] and ["Y"] only; ["yes"] is a no.  On a yes the script goes on with
    the step in question; on any other answer the step is left out: the
    script goes on from the machine as it was when the question was put,
    with no file changed.  (A question is reached when the existence tests
    that come before it do not fail.) *)
Theorem confirmations_accept_only_y (s : state) (answer : string)
    (rest : list key) :
  stdin s = Enter answer :: rest →
  (Text.lower answer = "y" ↔ answer = "y" ∨ answer = "Y") ∧
  Text.lower "yes" ≠ "y" ∧
  (is_Some (home s !! "StitchKit") →
   next_fault s = None → next_fault (pop s) = None →
   ∃ s1, asked backup_prompt rest s s1 ∧
         check_existing_installation s =
         if bool_decide (Text.lower answer = "y")
         then bind backup_then_restore (λ _, ret true) s1
         else (Return true, s1)) ∧
  (∀ b, latest_backup_of (listdir s) = Some b →
        is_Some (stat [b; ".env"] s) → next_fault s = None →
   ∃ s1, asked restore_prompt rest s s1 ∧
         restore_env_from_backup s =
         if bool_decide (Text.lower answer = "y")
         then restore_config [b; ".env"] s1
         else (Return false, s1)) ∧
  (env_has_credentials s = false →
   (check_env_credentials s).1 = Return false →
   ∃ s1, asked configure_prompt rest s s1 ∧
         final_steps s =
         if bool_decide (Text.lower answer = "y")
         then guided_setup s1
         else (Return (), set_stdout (stdout s1 ++ manual_next_steps) s1)).
Proof.
  intros Hin. split_and!.
  - apply lower_y.
  - intros H. discriminate H.
  - intros Hdir Hn1 Hn2.
    destruct (check_existing_installation_asked' s answer rest Hdir Hin Hn1 Hn2)
      as (s1 & Hasked & _ & _ & Heq).
    by exists s1.
  - intros b Hl Hb Hn.
    destruct (restore_env_from_backup_asked s b answer rest Hl Hb Hin Hn)
      as (s1 & Hasked & _ & _ & Heq).
    by exists s1.
  - intros Hec Hchk.
    destruct (final_steps_asked s answer rest Hec Hchk Hin)
      as (s1 & Hasked & _ & _ & Heq).
    by exists s1.
Qed.

(** ** Exit codes *)

Lemma launch_terminal (s s' : state) (u : unit) :
  launch s = (Return u, s') → launched s' ∨ guided_manual s'.
Proof.
  unfold launch, chdir_install_dir, subprocess, io, show_manual_next_steps,
    launched, guided_manual.
  exec. frame.
  repeat case_step; intros H; simplify_eq; simpl;
    try (left; apply last_snoc);
    try (right; by apply suffix_app_r).
Qed.

(** Case analysis on the next branch or call of the script. *)
Ltac crunch_step :=
  match goal with
  | |- context [match next_fault ?s with _ => _ end] =>
      destruct (next_fault s) eqn:?
  | |- context [match stdin ?s with _ => _ end] =>
      destruct (stdin s) as [|[?|] ?] eqn:?
  | |- context [if ?b then _ else _] => destruct b eqn:?
  | |- context [let (_, _) := ?f ?s in _] =>
      destruct (f s) as [[?|?] ?] eqn:?
  end; simpl.
Ltac crunch := repeat crunch_step.

Lemma show_manual_next_steps_guided (s s' : state) (r : outcome unit) :
  show_manual_next_steps s = (r, s') → guided_manual s'.
Proof.
  unfold show_manual_next_steps, modify, guided_manual. intros H.
  simplify_eq. simpl. by apply suffix_app_r.
Qed.

Lemma final_steps_terminal (s s' : state) (u : unit) :
  final_steps s = (Return u, s') → launched s' ∨ guided_manual s'.
Proof.
  unfold final_steps, guided_setup. exec. crunch; intros H; simplify_eq.
  all: try (by eapply launch_terminal).
  all: right; by eapply show_manual_next_steps_guided.
Qed.

Lemma setup_environment_Return (s s' : state) (b : bool) :
  setup_environment s = (Return b, s') → b = true.
Proof.
  unfold setup_environment. exec. crunch; intros H; by simplify_eq.
Qed.

Lemma check_python_version_Return (s s' : state) (b : bool) :
  check_python_version s = (Return b, s') →
  (b = false ↔ below_floor s) ∧
  (b = false → ∃ t, last (stdout s') = Some (Echo (colors error +:+ t))).
Proof.
  unfold check_python_version, below_floor. exec.
  destruct (Text.tuple_ltb _ _); simpl.
  - intros H. simplify_eq. split; [done|]. intros _. eexists. apply last_snoc.
  - destruct (String.words _); simpl; intros H; by simplify_eq.
Qed.

Lemma run_below_floor (s : state) :
  below_floor s → (run s).1 = Return false.
Proof.
  unfold below_floor, run, check_python_version. exec.
  intros H. destruct (bool_decide _); simpl; rewrite H; reflexivity.
Qed.

Lemma run_Return (s s' : state) (b : bool) :
  run s = (Return b, s') →
  (b = false ∧ below_floor s ∧
   ∃ t, last (stdout s') = Some (Echo (colors error +:+ t))) ∨
  (b = true ∧ ¬ below_floor s ∧ (launched s' ∨ guided_manual s')).
Proof.
  unfold run. exec. crunch; intros H; simplify_eq.
  all: repeat match goal with
       | x : bool |- _ => destruct x; simpl in *; try discriminate
       end.
  all: repeat match goal with
       | H : check_python_version _ = (Return _, _) |- _ =>
           apply check_python_version_Return in H as [[? ?] ?];
           unfold below_floor in *; simpl in *
       | H : setup_environment _ = (Return false, _) |- _ =>
           apply setup_environment_Return in H; discriminate H
       | H : final_steps _ = (Return _, _) |- _ =>
           apply final_steps_terminal in H
       end.
  all: try (left; split_and!; [done | by auto | by auto]).
  all: right; split_and!; [done | | done];
       intros Hb; by match goal with H : _ → true = false |- _ =>
                        apply H in Hb end.
Qed.

(** A last line that is not the last of the manual next steps shows that
    the script did not end well. *)
Lemma not_terminal (s : state) (t : string) :
  last (stdout s) = Some (Echo t) →
  t ≠ Text.nl +:+ "For help, see the README or contact IT support." →
  ¬ (launched s ∨ guided_manual s).
Proof.
  unfold launched, guided_manual. intros Hl Hne [H | [k H]].
  - rewrite Hl in H. discriminate H.
  - rewrite H, last_app in Hl. unfold manual_next_steps in Hl. simpl in Hl.
    by simplify_eq.
Qed.

(** C8. The exit code is 0 or 1.  It is 0 exactly when [run] returns true,
    which is exactly when the script ends with the target application
    started or with the manual next steps printed.  It is 1 exactly in three
    cases: the version of Python is below 3.7, an exception of class
    [Exception] leaves [run], or the user interrupts. *)
Theorem exit_codes (s : state) :
  let result := (run (new_installer s)).1 in
  let code := (main s).1 in
  let final := (main s).2 in
  (code = 0 ∨ code = 1) ∧
  (code = 0 ↔ result = Return true) ∧
  (code = 0 ↔ launched final ∨ guided_manual final) ∧
  (code = 1 ↔ below_floor s ∨
              (∃ e, result = Raise e ∧ is_Exception e = true) ∨
              result = Raise KeyboardInterrupt) ∧
  (result = Return false ↔ below_floor s).
Proof.
  unfold main. simpl.
  destruct (run (new_installer s)) as [[b|e] s'] eqn:Hrun; simpl.
  - apply run_Return in Hrun as [(-> & Hb & t & Ht) | (-> & Hb & Ht)];
      unfold below_floor in *; simpl in *.
    + assert (¬ (launched s' ∨ guided_manual s')) as Hnt.
      { eapply not_terminal; [exact Ht|].
        intros H. vm_compute in H. discriminate H. }
      split_and!; [by right | done | done | | done].
      split; [by left | done].
    + split_and!; [by left | done | done | | done].
      split; [done|]. intros [? | [(e & ? & _) | ?]]; done.
  - assert (¬ below_floor s) as Hnb.
    { intros Hb. pose proof (run_below_floor (new_installer s) Hb) as Hr.
      by rewrite Hrun in Hr. }
    unfold below_floor in *.
    destruct e; simpl; split_and!; try (by right); try done.
    all: try (split; [done|]; intros Hterm; exfalso;
              eapply not_terminal in Hterm;
              [done | simpl; apply last_snoc
              | intros H; vm_compute in H; discriminate H]).
    all: try (split; [intros _; right; left; by eexists | done]).
    all: try (split; [intros _; by right; right | done]).
Qed.

(** ** Running the script on a complete installation *)

Lemma carries_on_print (s : state) (out : list event) :
  faults s = [] → carries_on s (set_stdout (stdout s ++ out) s).
Proof. intros Hf. unfold carries_on. split_and!; try done. by exists out. Qed.

Lemma check_python_version_ok (s : state) :
  ¬ below_floor s → String.words (version (os s)) ≠ [] → faults s = [] →
  ∃ s', check_python_version s = (Return true, s') ∧ carries_on s s'.
Proof.
  unfold below_floor, check_python_version. intros Hb Hw Hf. exec.
  destruct (Text.tuple_ltb _ _); [done|].
  destruct (String.words _); [done|]. simpl.
  eexists. split; [reflexivity|]. by apply carries_on_print.
Qed.

Lemma install_dependencies_ok (s : state) :
  faults s = [] →
  ∃ b s', install_dependencies s = (Return b, s') ∧ carries_on s s'.
Proof.
  intros Hf. unfold install_dependencies, subprocess, io. exec.
  rewrite exists_nil by done. simpl.
  destruct (bool_decide _); simpl.
  - no_faults Hf. destruct (pip_returncode (os s) =? 0); simpl;
      do 2 eexists; (split; [reflexivity|]); unfold carries_on; simpl;
      rewrite ?Hf; split_and!; try done; solve_out.
  - do 2 eexists. split; [reflexivity|]. by apply carries_on_print.
Qed.

Lemma rc_file_name_ne (shell : string) : rc_file_name shell ≠ "StitchKit".
Proof.
  unfold rc_file_name.
  destruct (Text.contains "zsh" shell); [intros H; discriminate H|].
  destruct (Text.contains "bash" shell); intros H; discriminate H.
Qed.

Lemma create_alias_ok (s : state) :
  faults s = [] →
  ∃ s', create_alias s = (Return (), s') ∧ carries_on s s'.
Proof.
  intros Hf. unfold create_alias. exec.
  rewrite exists_nil by done. simpl.
  unfold read_text, fs_update, io. exec.
  set (rc := rc_file_name (default "/bin/bash" (SHELL (os s)))).
  assert (rc ≠ "StitchKit") as Hne by apply rc_file_name_ne.
  unfold stat, appended, placed. simpl.
  destruct (home s !! rc) as [[old|d]|] eqn:Hrc; simpl.
  - rewrite ?bool_decide_eq_true_2 by eauto. simpl. no_faults Hf.
    rewrite Hrc. simpl.
    destruct (Text.contains _ old); simpl; no_faults Hf; rewrite ?Hrc; simpl;
      eexists; (split; [reflexivity|]); unfold carries_on; simpl;
      rewrite ?Hf, ?lookup_insert_ne by done; split_and!; try done; solve_out.
  - rewrite ?bool_decide_eq_true_2 by eauto. simpl. no_faults Hf.
    rewrite Hrc. simpl.
    eexists; (split; [reflexivity|]); unfold carries_on; simpl;
      rewrite ?Hf; split_and!; try done; solve_out.
  - rewrite ?bool_decide_eq_false_2 by (by intros [? ?]). simpl. no_faults Hf.
    rewrite Hrc. simpl.
    eexists; (split; [reflexivity|]); unfold carries_on; simpl;
      rewrite ?Hf, ?lookup_insert_ne by done; split_and!; try done; solve_out.
Qed.

Lemma final_steps_launch (s : state) (content : string) :
  env_has_credentials s = false → complete_installation s content →
  faults s = [] →
  ∃ s', final_steps s = (Return (), s') ∧ launched s' ∧
        home s' = home s ∧ faults s' = [] ∧ stdin s' = stdin s ∧
        os s' = os s ∧ ∃ out, stdout s' = stdout s ++ out.
Proof.
  intros Hec [Hfile Hcred] Hf.
  destruct (proj1 (stat_env_file _ _) Hfile) as (d & Hd & _).
  unfold final_steps. exec. rewrite Hec. simpl.
  rewrite check_env_credentials_nil by done. frame.
  rewrite Hfile, Hcred. simpl.
  unfold launch, chdir_install_dir, subprocess, io. exec. no_faults Hf.
  rewrite stat_install_dir. simpl. rewrite Hd. simpl. no_faults Hf.
  eexists. split; [reflexivity|]. unfold launched. simpl.
  split; [apply last_snoc|]. rewrite ?Hf. split_and!; try done. solve_out.
Qed.

Lemma stat_env_file_carried (s s' : state) (n : node) :
  home s' !! "StitchKit" = home s !! "StitchKit" →
  stat env_file s = Some n → stat env_file s' = Some n.
Proof.
  intros Hh (d & Hd & He)%stat_env_file. apply stat_env_file.
  exists d. by rewrite Hh.
Qed.

Lemma run_declined (s : state) (content answer : string) (rest : list key) :
  env_has_credentials s = false →
  complete_installation s content →
  faults s = [] → ¬ below_floor s → String.words (version (os s)) ≠ [] →
  stdin s = Enter answer :: rest → Text.lower answer ≠ "y" →
  ∃ s', run s = (Return true, s') ∧ launched s' ∧ backup_asked s' ∧
        home s' !! "StitchKit" = home s !! "StitchKit" ∧
        faults s' = [] ∧ stdin s' = rest ∧ os s' = os s.
Proof.
  intros Hec [Hfile Hcred] Hf Hb Hw Hin Hy.
  destruct (proj1 (stat_env_file _ _) Hfile) as (d & Hd & Hde).
  unfold run. exec.
  destruct (bool_decide ("--verbose" ∈ argv (os s))); simpl.
  all: match goal with
       | |- context [check_python_version ?x] =>
           destruct (check_python_version_ok x) as (s1 & H1 & C1);
           [done..|]
       end.
  all: rewrite H1; simpl.
  all: destruct C1 as (C1h & C1f & C1i & C1o & C1r & C1c & out1 & C1out);
       simpl in *.
  all: destruct (check_existing_installation_asked' s1 answer rest)
         as (s2 & A2 & F2 & E2 & H2);
       [ rewrite C1h, Hd; eauto | by rewrite C1i | by apply next_fault_nil
       | rewrite pop_nil by done; by apply next_fault_nil |].
  all: rewrite (pop_nil s1), (pop_nil s1) in F2 by done.
  all: rewrite bool_decide_eq_false_2 in H2 by done; rewrite H2; simpl.
  all: destruct A2 as (L2 & (out2 & O2) & I2 & Hm2 & R2 & Os2).
  all: rewrite exists_nil by congruence; simpl.
  all: rewrite stat_install_dir, Hm2, C1h, Hd.
  all: rewrite bool_decide_eq_true_2 by eauto; simpl.
  all: destruct (install_dependencies_ok s2) as (b3 & s3 & H3 & C3);
       [congruence|].
  all: rewrite H3; simpl.
  all: destruct C3 as (C3h & C3f & C3i & C3o & C3r & C3c & out3 & C3out).
  all: assert (Input backup_prompt ∈ stdout s2) as Hasked
         by (by apply last_Some_elem_of).
  all: destruct b3; simpl.
  all: match goal with
       | |- context [setup_environment ?x] =>
           rewrite (setup_environment_present_nil x (File content))
             by first [ apply (stat_env_file_carried s);
                        [simpl; congruence | done]
                      | simpl; congruence ]
       end; simpl.
  all: match goal with
       | |- context [create_alias ?x] =>
           destruct (create_alias_ok x) as (s4 & H4 & C4); [by simpl|]
       end; rewrite H4; simpl.
  all: destruct C4 as (C4h & C4f & C4i & C4o & C4r & C4c & out4 & C4out);
       simpl in *.
  all: destruct (final_steps_launch s4 content)
         as (s5 & H5 & L5 & Hh5 & F5 & I5 & O5 & out5 & Out5);
       [ congruence
       | split; [apply (stat_env_file_carried s); [congruence | done] | done]
       | done |].
  all: rewrite H5; simpl; exists s5; split; [reflexivity|].
  all: split; [done|]; split_and!; try congruence.
  all: unfold backup_asked; rewrite Out5, C4out, ?C3out, !elem_of_app; tauto.
Qed.

Lemma main_declined (s : state) (content answer : string) (rest : list key) :
  complete_installation s content →
  faults s = [] → ¬ below_floor s → String.words (version (os s)) ≠ [] →
  stdin s = Enter answer :: rest → Text.lower answer ≠ "y" →
  ∃ s', main s = (0, s') ∧ launched s' ∧ backup_asked s' ∧
        complete_installation s' content ∧
        faults s' = [] ∧ stdin s' = rest ∧ os s' = os s.
Proof.
  intros Hc Hf Hb Hw Hin Hy.
  destruct (run_declined (new_installer s) content answer rest)
    as (s' & Hrun & Hl & Ha & Hh & Hf' & Hin' & Hos); try done.
  exists s'. unfold main. rewrite Hrun. split_and!; try done.
  destruct Hc as [Hfile Hcred]. split; [|done].
  by apply (stat_env_file_carried s).
Qed.

(** C2, as the code has it.  On an installation whose configuration passes
    the check, each run asks about a backup, because the installation
    directory exists.  When the user declines both times (Python is
    supported and no operation fails), both runs exit with code 0 after
    starting the target application, and the configuration file keeps its
    content. *)
Theorem run_twice_declining_backup (s : state) (content a1 a2 : string)
    (rest : list key) :
  complete_installation s content →
  faults s = [] → ¬ below_floor s → String.words (version (os s)) ≠ [] →
  stdin s = Enter a1 :: Enter a2 :: rest →
  Text.lower a1 ≠ "y" → Text.lower a2 ≠ "y" →
  let first := main (next_process s) in
  let second := main (next_process first.2) in
  first.1 = 0 ∧ second.1 = 0 ∧
  backup_asked first.2 ∧ backup_asked second.2 ∧
  launched first.2 ∧ launched second.2 ∧
  complete_installation first.2 content ∧
  complete_installation second.2 content.
Proof.
  intros Hc Hf Hb Hw Hin Hy1 Hy2.
  destruct (main_declined (next_process s) content a1 (Enter a2 :: rest))
    as (s1 & Hm1 & Hl1 & Ha1 & Hc1 & Hf1 & Hin1 & Hos1); try done.
  destruct (main_declined (next_process s1) content a2 rest)
    as (s2 & Hm2 & Hl2 & Ha2 & Hc2 & Hf2 & Hin2 & Hos2); try done.
  { unfold below_floor in *. simpl in *. by rewrite Hos1. }
  { simpl in *. by rewrite Hos1. }
  simpl. rewrite Hm1. simpl. rewrite Hm2. simpl. by split_and!.
Qed.

Lemma run_twice_declining_backup_witness :
  let first := main (next_process declining_user) in
  let second := main (next_process first.2) in
  first.1 = 0 ∧ second.1 = 0 ∧
  backup_asked first.2 ∧ backup_asked second.2 ∧
  launched first.2 ∧ launched second.2 ∧
  complete_installation first.2 complete_env ∧
  complete_installation second.2 complete_env.
Proof.
  apply (run_twice_declining_backup declining_user complete_env "n" "n" []).
  - split; reflexivity.
  - reflexivity.
  - unfold below_floor. vm_compute. intros H. discriminate H.
  - vm_compute. intros H. discriminate H.
  - reflexivity.
  - vm_compute. intros H. discriminate H.
  - vm_compute. intros H. discriminate H.
Defined.

(** C2, as the specification states it, fails: the run on a complete
    installation does ask about a backup. *)
Lemma idempotence_as_stated_fails : ¬ idempotence_as_stated.
Proof.
  intros H.
  destruct (H declining_user complete_env) as (Hno & _).
  - split; reflexivity.
  - reflexivity.
  - unfold below_floor. vm_compute. intros E. discriminate E.
  - vm_compute. intros E. discriminate E.
  - by exists "n", "n", [].
  - apply Hno. unfold backup_asked.
    apply (proj1 (bool_decide_eq_true
                    (Input backup_prompt
                     ∈ stdout (main (next_process declining_user)).2))).
    vm_compute. reflexivity.
Qed.

(** ** The properties at work on example machines *)

Lemma check_env_credentials_iff_witness :
  ∃ b, (check_env_credentials declining_user).1 = Return b ∧
       (b = true ↔ Forall (field_filled complete_env) required_fields).
Proof.
  apply (check_env_credentials_iff declining_user complete_env).
  - reflexivity.
  - reflexivity.
  - reflexivity.
Defined.

Lemma check_env_credentials_surfaces_error_witness :
  check_env_credentials unsearchable_install
  = (Raise OSError, pop unsearchable_install) ∧
  ∃ s', check_env_credentials unreadable_env = (Return false, s') ∧
        stdout s' = stdout unreadable_env ∧ home s' = home unreadable_env.
Proof.
  split.
  - apply (check_env_credentials_surfaces_error unsearchable_install);
      reflexivity.
  - apply (check_env_credentials_surfaces_error unreadable_env).
    + exists true. reflexivity.
    + right. exists OSError. split; reflexivity.
Defined.

Lemma backup_existing_outcomes_witness :
  ∃ s', backup_existing fresh_machine = (Return None, s') ∧
        home s' = home fresh_machine.
Proof.
  apply (backup_existing_outcomes fresh_machine).
  - reflexivity.
  - vm_compute. intros H. discriminate H.
Defined.

Lemma restore_reads_latest_backup_witness :
  ∃ b, latest_backup_of (listdir (backup_existing agreeing_user).2) = Some b ∧
       String.le "StitchKit.backup-20240102-030405" b.
Proof.
  destruct (proj1 restore_reads_latest_backup agreeing_user
              (backup_existing agreeing_user).2
              "StitchKit.backup-20240102-030405")
    as (b & Hl & _ & _ & _ & Hle & _).
  - vm_compute. reflexivity.
  - exists b. split; [exact Hl | exact Hle].
Defined.

Lemma setup_environment_branches_witness :
  (∃ s', setup_environment restored_flag_only = (Return true, s') ∧
         home s' =
         <["StitchKit" := Dir (<[".env" := File env_content]> ∅)]>
           (home restored_flag_only) ∧
         env_restored s' = env_restored restored_flag_only) ∧
  (∃ s', setup_environment (set_env_restored true declining_user)
         = (Return true, s') ∧
         home s' = home (set_env_restored true declining_user) ∧
         stdout s' = stdout (set_env_restored true declining_user) ∧
         stat env_file s' = Some (File complete_env)).
Proof.
  split.
  - apply (setup_environment_branches restored_flag_only); reflexivity.
  - apply (setup_environment_branches (set_env_restored true declining_user));
      reflexivity.
Defined.

Lemma confirmations_accept_only_y_witness :
  ∃ s1, asked backup_prompt [] (machine installed_home [Enter "yes"] []) s1 ∧
        check_existing_installation (machine installed_home [Enter "yes"] [])
        = if bool_decide (Text.lower "yes" = "y")
          then bind backup_then_restore (λ _, ret true) s1
          else (Return true, s1).
Proof.
  apply (confirmations_accept_only_y
           (machine installed_home [Enter "yes"] []) "yes" []).
  - reflexivity.
  - vm_compute. eauto.
  - reflexivity.
  - reflexivity.
Defined.

Lemma exit_codes_witness :
  (main declining_user).1 = 0 ↔
  launched (main declining_user).2 ∨ guided_manual (main declining_user).2.
Proof.
  apply (exit_codes declining_user).
Defined.

(** * Further properties of the script *)

(** ** The version check *)

Lemma tuple_ltb_3_7 (major minor : nat) (rest : list nat) :
  Text.tuple_ltb (major :: minor :: rest) [3; 7] = true ↔
  older_than_3_7 major minor.
Proof.
  unfold older_than_3_7. simpl.
  rewrite orb_true_iff, andb_true_iff, orb_true_iff, andb_true_iff.
  rewrite !Nat.ltb_lt, !Nat.eqb_eq.
  destruct rest; naive_solver lia.
Qed.

(** X1. [check_python_version] looks at the first two numbers of
    [sys.version_info] only: it returns false exactly when they are below
    3.7, whatever follows them, and true otherwise; it reads nothing from
    the user and changes no file. *)
Theorem check_python_version_floor (s : state) (major minor : nat)
    (rest : list nat) :
  version_info (os s) = major :: minor :: rest →
  String.words (version (os s)) ≠ [] →
  ∃ b s', check_python_version s = (Return b, s') ∧
          (b = false ↔ older_than_3_7 major minor) ∧
          home s' = home s ∧ stdin s' = stdin s ∧ faults s' = faults s.
Proof.
  intros Hv Hw. unfold check_python_version. exec. rewrite Hv.
  destruct (Text.tuple_ltb _ _) eqn:Hlt.
  - do 2 eexists. split; [reflexivity|]. simpl. split_and!; try done.
    split; [intros _; by apply (tuple_ltb_3_7 _ _ rest) | done].
  - destruct (String.words _); [done|]. simpl.
    do 2 eexists. split; [reflexivity|]. simpl. split_and!; try done.
    split; [done|]. intros H%(tuple_ltb_3_7 _ _ rest). congruence.
Qed.

Lemma check_python_version_floor_witness :
  ∃ b s', check_python_version declining_user = (Return b, s') ∧
          (b = false ↔ older_than_3_7 3 11) ∧
          home s' = home declining_user ∧ stdin s' = stdin declining_user ∧
          faults s' = faults declining_user.
Proof.
  apply (check_python_version_floor declining_user 3 11 [4]).
  - reflexivity.
  - vm_compute. intros H. discriminate H.
Defined.

(** X2. On a Python below 3.7 the process exits with code 1 at once: no
    question is put to the user, no file or process operation is tried and
    no file changes. *)
Theorem main_below_floor (s : state) (major minor : nat) (rest : list nat) :
  version_info (os s) = major :: minor :: rest →
  older_than_3_7 major minor →
  (main s).1 = 1 ∧
  home (main s).2 = home s ∧ stdin (main s).2 = stdin s ∧
  faults (main s).2 = faults s ∧
  ∀ e, e ∈ stdout (main s).2 → e ∈ stdout s ∨ ∃ text, e = Echo text.
Proof.
  intros Hv Hold%(tuple_ltb_3_7 _ _ rest). rewrite <- Hv in Hold.
  unfold main, run, check_python_version. exec.
  destruct (bool_decide _); simpl; rewrite Hold; simpl.
  all: split_and!; try reflexivity.
  all: intros e; rewrite !elem_of_app, !list_elem_of_singleton; naive_solver.
Qed.

Lemma main_below_floor_witness :
  (main legacy_machine).1 = 1 ∧
  home (main legacy_machine).2 = home legacy_machine ∧
  stdin (main legacy_machine).2 = stdin legacy_machine ∧
  faults (main legacy_machine).2 = faults legacy_machine ∧
  ∀ e, e ∈ stdout (main legacy_machine).2 →
       e ∈ stdout legacy_machine ∨ ∃ text, e = Echo text.
Proof.
  apply (main_below_floor legacy_machine 3 6 [9]).
  - reflexivity.
  - right. split; [reflexivity | unfold lt; repeat constructor].
Defined.

(** ** A first installation *)

Lemma env_content_incomplete : credentials_in env_content = false.
Proof. vm_compute. reflexivity. Qed.

Lemma check_existing_installation_absent (s : state) :
  home s !! "StitchKit" = None → faults s = [] →
  check_existing_installation s = (Return false, s).
Proof.
  intros H Hf. unfold check_existing_installation. exec.
  rewrite exists_nil by done. simpl.
  rewrite stat_install_dir, H.
  by rewrite bool_decide_eq_false_2 by (by intros [? ?]).
Qed.

Lemma setup_environment_absent (s : state) (d : gmap string node) :
  home s !! "StitchKit" = Some (Dir d) → d !! ".env" = None →
  faults s = [] →
  ∃ s', setup_environment s = (Return true, s') ∧
        home s' = <["StitchKit" := Dir (<[".env" := File env_content]> d)]> (home s) ∧
        faults s' = [] ∧ stdin s' = stdin s ∧ os s' = os s ∧
        env_restored s' = env_restored s ∧
        env_has_credentials s' = env_has_credentials s ∧
        ∃ out, stdout s' = stdout s ++ out.
Proof.
  intros Hd He Hf.
  assert (stat env_file s = None) as Hnone.
  { unfold env_file. by rewrite stat_child, Hd. }
  unfold setup_environment, create_basic_env. exec.
  destruct (env_restored s) eqn:Hr; simpl;
    rewrite ?exists_nil by done; simpl;
    rewrite ?Hnone, ?bool_decide_eq_false_2 by (by intros [? ?]); simpl;
    rewrite ?exists_nil by done; simpl;
    rewrite ?Hnone, ?bool_decide_eq_false_2 by (by intros [? ?]); simpl;
    rewrite fs_update_eq, next_fault_nil by done;
    rewrite (written_env _ d) by done; simpl;
    (eexists; split; [reflexivity|]); simpl; rewrite Hf, ?Hr;
    split_and!; try reflexivity; solve_out.
Qed.

Lemma run_fresh (s : state) (answer : string) (rest : list key) :
  env_has_credentials s = false →
  home s !! "StitchKit" = None →
  faults s = [] → ¬ below_floor s → String.words (version (os s)) ≠ [] →
  stdin s = Enter answer :: rest → Text.lower answer ≠ "y" →
  ∃ s', run s = (Return true, s') ∧ guided_manual s' ∧
        home s' !! "StitchKit" = Some (Dir {[".env" := File env_content]}) ∧
        faults s' = [] ∧ stdin s' = rest ∧ os s' = os s ∧
        env_restored s' = env_restored s.
Proof.
  intros Hec Hnone Hf Hb Hw Hin Hy.
  unfold run. exec.
  destruct (bool_decide ("--verbose" ∈ argv (os s))); simpl.
  all: match goal with
       | |- context [check_python_version ?x] =>
           destruct (check_python_version_ok x) as (s1 & H1 & C1);
           [done..|]
       end.
  all: rewrite H1; simpl.
  all: destruct C1 as (C1h & C1f & C1i & C1o & C1r & C1c & out1 & C1out);
       simpl in *.
  all: rewrite check_existing_installation_absent by congruence.
  all: rewrite exists_nil by congruence; simpl.
  all: rewrite stat_install_dir, C1h, Hnone.
  all: rewrite bool_decide_eq_false_2 by (by intros [? ?]); simpl.
  all: rewrite fs_update_eq; simpl; rewrite next_fault_nil by done.
  all: unfold made_dir; rewrite C1h, Hnone; simpl.
  all: match goal with
       | |- context [install_dependencies ?x] =>
           destruct (install_dependencies_ok x) as (b3 & s3 & H3 & C3);
           [by (unfold pop; simpl; rewrite C1f)|]
       end.
  all: rewrite H3; simpl.
  all: destruct C3 as (C3h & C3f & C3i & C3o & C3r & C3c & out3 & C3out);
       simpl in *; rewrite lookup_insert_eq in C3h.
  all: destruct b3; simpl.
  all: match goal with
       | |- context [setup_environment ?x] =>
           destruct (setup_environment_absent x ∅)
             as (s4 & H4 & Hh4 & F4 & I4 & O4 & R4 & E4 & out4 & Out4);
           [done | done | done |]
       end.
  all: rewrite H4; simpl.
  all: destruct (create_alias_ok s4) as (s5 & H5 & C5); [done|].
  all: rewrite H5; simpl.
  all: destruct C5 as (C5h & C5f & C5i & C5o & C5r & C5c & out5 & C5out).
  all: assert (home s5 !! "StitchKit"
               = Some (Dir {[".env" := File env_content]})) as Hh5
         by (rewrite C5h, Hh4; simpl; by rewrite lookup_insert_eq).
  all: assert (stat env_file s5 = Some (File env_content)) as Hfile
         by (apply stat_env_file; eexists; split;
             [exact Hh5 | apply lookup_singleton_eq]).
  all: destruct (final_steps_asked s5 answer rest)
         as (s6 & A6 & E6 & F6 & H6);
       [ simpl in *; congruence
       | by rewrite check_env_credentials_nil, Hfile,
              env_content_incomplete by done
       | simpl in *; congruence |].
  all: rewrite bool_decide_eq_false_2 in H6 by done; rewrite H6.
  all: destruct A6 as (L6 & (out6 & O6) & I6 & Hm6 & R6 & Os6).
  all: specialize (F6 C5f).
  all: eexists; split; [reflexivity|].
  all: split; [by eapply (show_manual_next_steps_guided s6) |].
  all: unfold show_manual_next_steps, modify, pop in *; simpl in *.
  all: split_and!; congruence.
Qed.

(** X3. The first installation.  On a machine without an installation
    directory, with a supported Python, no operation failing and a user who
    declines to configure the credentials, the process exits with code 0
    after printing the manual next steps; the installation directory then
    exists and holds the template as its configuration, which does not pass
    the credential check. *)
Theorem first_install_ends_guided (s : state) (answer : string)
    (rest : list key) :
  home s !! "StitchKit" = None →
  faults s = [] → ¬ below_floor s → String.words (version (os s)) ≠ [] →
  stdin s = Enter answer :: rest → Text.lower answer ≠ "y" →
  ∃ s', main s = (0, s') ∧ guided_manual s' ∧
        home s' !! "StitchKit" = Some (Dir {[".env" := File env_content]}) ∧
        (check_env_credentials s').1 = Return false ∧
        stdin s' = rest.
Proof.
  intros Hnone Hf Hb Hw Hin Hy.
  destruct (run_fresh (new_installer s) answer rest)
    as (s' & Hrun & Hg & Hh & Hf' & Hin' & _); try done.
  exists s'. unfold main. rewrite Hrun. split_and!; try done.
  rewrite check_env_credentials_nil by done.
  assert (stat env_file s' = Some (File env_content)) as ->.
  { apply stat_env_file. eexists. split; [exact Hh|].
    apply lookup_singleton_eq. }
  by rewrite env_content_incomplete.
Qed.

Lemma first_install_ends_guided_witness :
  ∃ s', main fresh_declining = (0, s') ∧ guided_manual s' ∧
        home s' !! "StitchKit" = Some (Dir {[".env" := File env_content]}) ∧
        (check_env_credentials s').1 = Return false ∧
        stdin s' = [].
Proof.
  apply (first_install_ends_guided fresh_declining "n" []).
  - reflexivity.
  - reflexivity.
  - unfold below_floor. vm_compute. intros H. discriminate H.
  - vm_compute. intros H. discriminate H.
  - reflexivity.
  - vm_compute. intros H. discriminate H.
Defined.

(** ** What the script leaves alone *)

Lemma only_touches_same (s s' : state) :
  os s' = os s → home s' = home s → only_touches s s'.
Proof. intros Ho Hh. split; [done|]. intros name _. by rewrite Hh. Qed.

Lemma put_other (x : string) (p : path) (v : option node)
    (h h' : gmap string node) (name : string) :
  put (x :: p) v (Dir h) = Some (Dir h') → name ≠ x →
  h' !! name = h !! name.
Proof.
  simpl. intros H Hne. destruct p as [|y p].
  - simplify_eq. destruct v; by rewrite ?lookup_insert_ne, ?lookup_delete_ne.
  - destruct (h !! x) as [c|]; [|done].
    destruct (put (y :: p) v c) as [c'|]; simpl in H; [|done].
    simplify_eq. by rewrite lookup_insert_ne.
Qed.

Lemma placed_other (x : string) (p : path) (n : node)
    (h h' : gmap string node) (name : string) :
  placed (x :: p) n h = inr h' → name ≠ x → h' !! name = h !! name.
Proof.
  unfold placed. intros H Hne.
  destruct (put (x :: p) (Some n) (Dir h)) as [[c|d]|] eqn:Hp; simplify_eq.
  by eapply put_other.
Qed.

Lemma written_other (x : string) (p : path) (text : string)
    (h h' : gmap string node) (name : string) :
  written (x :: p) text h = inr h' → name ≠ x → h' !! name = h !! name.
Proof.
  unfold written. intros H Hne.
  destruct (node_at (Dir h) (x :: p)) as [[c|d]|]; try done;
    by eapply placed_other.
Qed.

Lemma appended_other (x : string) (p : path) (text : string)
    (h h' : gmap string node) (name : string) :
  appended (x :: p) text h = inr h' → name ≠ x → h' !! name = h !! name.
Proof.
  unfold appended. intros H Hne.
  destruct (node_at (Dir h) (x :: p)) as [[c|d]|]; try done;
    by eapply placed_other.
Qed.

Lemma copied_other (src : path) (x : string) (p : path)
    (h h' : gmap string node) (name : string) :
  copied src (x :: p) h = inr h' → name ≠ x → h' !! name = h !! name.
Proof.
  unfold copied. intros H Hne.
  destruct (node_at (Dir h) src) as [[content|]|]; try done.
  cbv zeta in H.
  destruct (node_at (Dir h) (x :: p)) as [[c|d]|]; simpl in H;
    repeat match type of H with
           | context [match ?t with _ => _ end] => destruct t
           end; try done; by eapply placed_other.
Qed.

Lemma made_dir_other (x : string) (h h' : gmap string node) (name : string) :
  made_dir x h = inr h' → name ≠ x → h' !! name = h !! name.
Proof.
  unfold made_dir. intros H Hne.
  destruct (h !! x) as [[c|d]|]; simplify_eq; [done|].
  by rewrite lookup_insert_ne.
Qed.

Lemma moved_other (src dst : string) (h h' : gmap string node)
    (name : string) :
  moved src dst h = inr h' → name ≠ src → name ≠ dst →
  h' !! name = h !! name.
Proof.
  unfold moved. intros H Hs Hd.
  repeat match type of H with
         | context [match ?t with _ => _ end] => destruct t
         end; simplify_eq;
    by rewrite lookup_insert_ne, lookup_delete_ne.
Qed.

Lemma edited_other (f : option string → option string)
    (h : gmap string node) (name : string) :
  name ≠ "StitchKit" → edited f h !! name = h !! name.
Proof.
  unfold edited. intros Hne.
  repeat match goal with
         | |- context [match ?t with _ => _ end] => destruct t
         end; by rewrite ?lookup_insert_ne.
Qed.

(** What a file operation leaves of the machine. *)
Lemma fs_update_inv (f : gmap string node → exn + gmap string node)
    (s s' : state) (r : outcome unit) :
  fs_update f s = (r, s') →
  os s' = os s ∧ stdin s' = stdin s ∧ stdout s' = stdout s ∧
  env_restored s' = env_restored s ∧
  env_has_credentials s' = env_has_credentials s ∧
  ((∃ e, r = Raise e ∧ home s' = home s) ∨
   (r = Return () ∧ f (home s) = inr (home s'))).
Proof.
  rewrite fs_update_eq.
  destruct (next_fault s); [|destruct (f (home s)) eqn:Hf];
    intros H; simplify_eq; simpl; split_and!; try done; eauto.
Qed.

Lemma fs_update_touches (f : gmap string node → exn + gmap string node)
    (s s' : state) (r : outcome unit) :
  fs_update f s = (r, s') →
  (∀ h h' name, f h = inr h' → spared s name → h' !! name = h !! name) →
  only_touches s s'.
Proof.
  intros (Ho & _ & _ & _ & _ & [(e & _ & Hh) | (_ & Hf)])%fs_update_inv Hsp.
  - by apply only_touches_same.
  - split; [done|]. intros name Hn. by eapply Hsp.
Qed.

Lemma read_text_inv (p : path) (s s' : state) (r : outcome string) :
  read_text p s = (r, s') →
  os s' = os s ∧ home s' = home s ∧ stdin s' = stdin s ∧
  stdout s' = stdout s ∧ env_restored s' = env_restored s ∧
  env_has_credentials s' = env_has_credentials s.
Proof.
  rewrite read_text_eq.
  destruct (next_fault s); [|destruct (stat p s) as [[]|]];
    intros H; by simplify_eq.
Qed.

Lemma check_env_credentials_inv (s s' : state) (r : outcome bool) :
  check_env_credentials s = (r, s') →
  os s' = os s ∧ home s' = home s ∧ stdin s' = stdin s ∧
  stdout s' = stdout s ∧ env_restored s' = env_restored s ∧
  env_has_credentials s' = env_has_credentials s.
Proof.
  intros H. destruct (check_env_credentials_frame s)
    as (Hh & Hi & Ho & Hos & Hr & Hc & _).
  rewrite H in *. simpl in *. by split_and!.
Qed.

Lemma exists_inv (p : path) (s s' : state) (r : outcome bool) :
  exists_ p s = (r, s') →
  os s' = os s ∧ home s' = home s ∧ stdin s' = stdin s ∧
  stdout s' = stdout s ∧ env_restored s' = env_restored s ∧
  env_has_credentials s' = env_has_credentials s.
Proof.
  unfold exists_. repeat case_step; intros H; by simplify_eq.
Qed.

(** Turn what is known of the file operations and checks of a run into
    facts on the spared entries. *)
Ltac touch_calls :=
  repeat match goal with
  | H : fs_update _ _ = _ |- _ =>
      apply fs_update_touches in H;
      [| let Hsp := fresh "Hsp" in
         intros ? ? ? ? Hsp;
         unfold spared, backup_name, rc_name in Hsp; simpl in Hsp;
         repeat match goal with
                | Ho : os _ = _ |- _ => rewrite Ho in Hsp
                end;
         destruct Hsp as (? & ? & ?);
         first [ by eapply moved_other | by eapply made_dir_other
               | by eapply copied_other | by eapply written_other
               | by eapply appended_other ] ]
  | H : read_text _ _ = _ |- _ => apply read_text_inv in H as (? & ? & _)
  | H : check_env_credentials _ = _ |- _ =>
      apply check_env_credentials_inv in H as (? & ? & _)
  | H : exists_ _ _ = _ |- _ => apply exists_inv in H as (? & ? & _)
  end.

(** Chain those facts from the first machine to the last. *)
Ltac touch_chain :=
  unfold only_touches, spared, backup_name, rc_name in *; simpl in *;
  repeat match goal with H : _ ∧ _ |- _ => destruct H end;
  split; [congruence|];
  repeat match goal with
         | H : os ?y = _ |- _ => is_var y; rewrite H in *; clear H
         end;
  let name := fresh "name" in
  let Hsp := fresh "Hsp" in
  intros name Hsp;
  repeat match goal with
         | H : ∀ n, _ → home ?y !! n = _ |- context [home ?y !! _] =>
             rewrite (H name Hsp)
         | H : home ?y = _ |- context [home ?y] => rewrite H
         end;
  first [ reflexivity | by apply edited_other; destruct Hsp ].

Ltac touch := touch_calls; touch_chain.

Lemma backup_existing_touches (s s' : state) (r : outcome (option string)) :
  backup_existing s = (r, s') → only_touches s s'.
Proof.
  unfold backup_existing. exec. crunch; intros H; simplify_eq; touch.
Qed.

Lemma restore_env_from_backup_touches (s s' : state) (r : outcome bool) :
  restore_env_from_backup s = (r, s') → only_touches s s'.
Proof.
  unfold restore_env_from_backup, restore_config. exec.
  destruct (latest_backup_of _); simpl;
    crunch; intros H; simplify_eq; touch.
Qed.

Lemma backup_then_restore_touches (s s' : state) (r : outcome unit) :
  backup_then_restore s = (r, s') → only_touches s s'.
Proof.
  unfold backup_then_restore. exec. crunch; intros H; simplify_eq.
  all: repeat match goal with
       | H : backup_existing _ = _ |- _ => apply backup_existing_touches in H
       | H : restore_env_from_backup _ = _ |- _ =>
           apply restore_env_from_backup_touches in H
       end.
  all: touch.
Qed.

Lemma check_existing_installation_touches (s s' : state) (r : outcome bool) :
  check_existing_installation s = (r, s') → only_touches s s'.
Proof.
  unfold check_existing_installation. exec. crunch; intros H; simplify_eq.
  all: repeat match goal with
       | H : backup_then_restore _ = _ |- _ =>
           apply backup_then_restore_touches in H
       end.
  all: touch.
Qed.

Lemma install_dependencies_inv (s s' : state) (r : outcome bool) :
  install_dependencies s = (r, s') →
  os s' = os s ∧ home s' = home s ∧ stdin s' = stdin s ∧
  env_restored s' = env_restored s ∧
  env_has_credentials s' = env_has_credentials s ∧
  (r = Raise KeyboardInterrupt ∨ (∃ b, r = Return b) ∨
   ∃ e, r = Raise e ∧ next_fault s = Some e ∧ ignored_by_exists e = false ∧
        s' = pop s).
Proof.
  unfold install_dependencies, subprocess, io. exec. unfold exists_.
  crunch; intros H; simplify_eq; split_and!; try reflexivity.
  all: try (right; left; eexists; reflexivity).
  all: try (right; right; eexists; split_and!; [reflexivity | done..]).
  all: left; match goal with e : exn |- _ => by destruct e end.
Qed.

Lemma setup_environment_touches (s s' : state) (r : outcome bool) :
  setup_environment s = (r, s') → only_touches s s'.
Proof.
  unfold setup_environment, create_basic_env. exec.
  crunch; intros H; simplify_eq; touch.
Qed.

Lemma create_alias_touches (s s' : state) (r : outcome unit) :
  create_alias s = (r, s') → only_touches s s'.
Proof.
  unfold create_alias. exec.
  crunch; intros H; simplify_eq; touch.
Qed.

Lemma launch_inv (s s' : state) (r : outcome unit) :
  launch s = (r, s') →
  os s' = os s ∧ home s' = home s ∧ stdin s' = stdin s ∧
  (r = Raise KeyboardInterrupt ∨ r = Return ()).
Proof.
  unfold launch, chdir_install_dir, subprocess, io, show_manual_next_steps.
  exec. frame.
  repeat case_step; intros H; simplify_eq; split_and!; try reflexivity; eauto.
  all: left; match goal with e : exn |- _ => by destruct e end.
Qed.

(** *** Composing steps that leave the spared entries alone *)

Lemma only_touches_trans (s1 s2 s3 : state) :
  only_touches s1 s2 → only_touches s2 s3 → only_touches s1 s3.
Proof.
  unfold only_touches, spared, backup_name, rc_name.
  intros [Ho1 H1] [Ho2 H2]. split; [congruence|].
  intros name Hsp. rewrite H2, H1; [done..|]. by rewrite Ho1.
Qed.

Lemma leaves_ret {A} (a : A) : leaves_spared (ret a).
Proof. intros s r s' H. unfold ret in H. simplify_eq. by apply only_touches_same. Qed.

Lemma leaves_raise {A} (e : exn) : leaves_spared (raise (A:=A) e).
Proof. intros s r s' H. unfold raise in H. simplify_eq. by apply only_touches_same. Qed.

Lemma leaves_get {A} (f : state → A) : leaves_spared (get f).
Proof. intros s r s' H. unfold get in H. simplify_eq. by apply only_touches_same. Qed.

Lemma leaves_modify (f : state → state) :
  (∀ s, os (f s) = os s ∧
        ∀ name, name ≠ "StitchKit" → home (f s) !! name = home s !! name) →
  leaves_spared (modify f).
Proof.
  intros Hf s r s' H. unfold modify in H. simplify_eq.
  destruct (Hf s) as [Ho Hh]. split; [done|].
  intros name (Hn & _). by apply Hh.
Qed.

Lemma leaves_print (text : string) : leaves_spared (print text).
Proof. apply leaves_modify. by intros s. Qed.

Lemma leaves_sleep (n : nat) : leaves_spared (sleep n).
Proof. apply leaves_modify. by intros s. Qed.

Lemma leaves_input (prompt : string) : leaves_spared (input prompt).
Proof.
  intros s r s'. unfold input. simpl.
  destruct (stdin s) as [|[line|] rest]; intros H; simplify_eq;
    by apply only_touches_same.
Qed.

Lemma leaves_io : leaves_spared io.
Proof.
  intros s r s'. unfold io.
  destruct (next_fault s); intros H; simplify_eq; by apply only_touches_same.
Qed.

Lemma leaves_bind {A B} (m : M A) (k : A → M B) :
  leaves_spared m → (∀ a, leaves_spared (k a)) → leaves_spared (bind m k).
Proof.
  intros Hm Hk s r s'. unfold bind.
  destruct (m s) as [[a|e] s1] eqn:H1.
  - intros H2. eapply only_touches_trans; [by eapply Hm | by eapply Hk].
  - intros H2. simplify_eq. by eapply Hm.
Qed.

Lemma leaves_try_except {A} (body : M A) (catches : exn → bool)
    (handler : exn → M A) :
  leaves_spared body → (∀ e, leaves_spared (handler e)) →
  leaves_spared (try_except body catches handler).
Proof.
  intros Hb Hh s r s'. unfold try_except.
  destruct (body s) as [[a|e] s1] eqn:H1.
  - intros H2. simplify_eq. by eapply Hb.
  - destruct (catches e); intros H2.
    + eapply only_touches_trans; [by eapply Hb | by eapply Hh].
    + simplify_eq. by eapply Hb.
Qed.

Lemma leaves_subprocess (cmd : list string) : leaves_spared (subprocess cmd).
Proof.
  unfold subprocess. apply leaves_bind; [apply leaves_io|].
  intros _. apply leaves_modify. by intros s.
Qed.

Lemma leaves_check_env_credentials : leaves_spared check_env_credentials.
Proof.
  intros s r s' (Ho & Hh & _)%check_env_credentials_inv.
  by apply only_touches_same.
Qed.

Create HintDb spare.
#[global] Hint Resolve leaves_ret leaves_raise leaves_get leaves_print
  leaves_sleep leaves_input leaves_io leaves_subprocess
  leaves_check_env_credentials : spare.

(** Go through a block of the script step by step. *)
Ltac leaves :=
  cbv beta delta [print_header print_status print_success print_error
                  print_warning print_info];
  repeat first
    [ solve [auto 1 with spare nocore]
    | apply leaves_bind | apply leaves_try_except
    | progress intros
    | match goal with
      | |- leaves_spared (if ?b then _ else _) => destruct b
      | |- leaves_spared (match ?x with _ => _ end) => destruct x
      end ].

Lemma leaves_edit_env (program : string) : leaves_spared (edit_env program).
Proof.
  unfold edit_env. leaves. apply leaves_modify. intros s. simpl.
  split; [done|]. intros name Hne. by apply edited_other.
Qed.
#[global] Hint Resolve leaves_edit_env : spare.

Lemma leaves_set_env_has_credentials (b : bool) :
  leaves_spared (modify (set_env_has_credentials b)).
Proof. apply leaves_modify. by intros s. Qed.
#[global] Hint Resolve leaves_set_env_has_credentials : spare.

Lemma leaves_guide_env_setup : leaves_spared guide_env_setup.
Proof. unfold guide_env_setup. leaves. Qed.
#[global] Hint Resolve leaves_guide_env_setup : spare.

Lemma leaves_set_stdout (f : state → list event) :
  leaves_spared (modify (λ s, set_stdout (f s) s)).
Proof. apply leaves_modify. by intros s. Qed.

Lemma leaves_exists (p : path) : leaves_spared (exists_ p).
Proof.
  intros s r s' (Ho & Hh & _)%exists_inv. by apply only_touches_same.
Qed.
#[global] Hint Resolve leaves_exists : spare.

Lemma leaves_show_manual_next_steps : leaves_spared show_manual_next_steps.
Proof. apply leaves_modify. by intros s. Qed.

Lemma leaves_set_verbose (b : bool) : leaves_spared (modify (set_verbose b)).
Proof. apply leaves_modify. by intros s. Qed.

Lemma leaves_mkdir : leaves_spared (mkdir "StitchKit").
Proof.
  intros s r s' H. unfold mkdir in H. touch_calls. exact H.
Qed.

Lemma leaves_check_existing_installation :
  leaves_spared check_existing_installation.
Proof. intros s r s'. apply check_existing_installation_touches. Qed.

Lemma leaves_setup_environment : leaves_spared setup_environment.
Proof. intros s r s'. apply setup_environment_touches. Qed.

Lemma leaves_create_alias : leaves_spared create_alias.
Proof. intros s r s'. apply create_alias_touches. Qed.

Lemma leaves_install_dependencies : leaves_spared install_dependencies.
Proof.
  intros s r s' (Ho & Hh & _)%install_dependencies_inv.
  by apply only_touches_same.
Qed.

Lemma leaves_launch : leaves_spared launch.
Proof.
  intros s r s' (Ho & Hh & _)%launch_inv. by apply only_touches_same.
Qed.

#[global] Hint Resolve leaves_show_manual_next_steps leaves_set_verbose
  leaves_mkdir leaves_check_existing_installation leaves_setup_environment
  leaves_create_alias leaves_install_dependencies leaves_launch : spare.

Lemma leaves_check_python_version : leaves_spared check_python_version.
Proof. unfold check_python_version. leaves. Qed.
#[global] Hint Resolve leaves_check_python_version : spare.

Lemma leaves_guided_setup : leaves_spared guided_setup.
Proof. unfold guided_setup. leaves. Qed.
#[global] Hint Resolve leaves_guided_setup : spare.

Lemma leaves_final_steps : leaves_spared final_steps.
Proof. unfold final_steps. leaves. Qed.
#[global] Hint Resolve leaves_final_steps : spare.




(** ** The shell alias *)

Lemma string_app_nil_r (a : string) : a +:+ EmptyString = a.
Proof. induction a as [|c a IH]; [done|]. by rewrite string_app_cons, IH. Qed.

Lemma alias_block_known (old : string) :
  Text.contains "alias stitchkit=" (old +:+ alias_block) = true.
Proof.
  apply contains_occurs. apply (occurs_app _ alias_block).
  - apply contains_occurs. vm_compute. reflexivity.
  - exists old, EmptyString. by rewrite string_app_nil_r.
Qed.

Lemma create_alias_run (s : state) :
  faults s = [] →
  ∃ s', create_alias s = (Return (), s') ∧ faults s' = [] ∧ os s' = os s ∧
        home s' =
        match home s !! rc_name s with
        | None => <[rc_name s := File alias_block]> (home s)
        | Some (File old) =>
            if Text.contains "alias stitchkit=" old then home s
            else <[rc_name s := File (old +:+ alias_block)]> (home s)
        | Some (Dir _) => home s
        end.
Proof.
  intros Hf. unfold create_alias. exec.
  rewrite exists_nil by done. simpl.
  unfold read_text, fs_update, io. exec.
  unfold rc_name, alias_block.
  set (rc := rc_file_name (default "/bin/bash" (SHELL (os s)))).
  unfold stat, appended, placed. simpl.
  destruct (home s !! rc) as [[old|d]|] eqn:Hrc; simpl.
  - no_faults Hf. rewrite Hrc. simpl.
    destruct (Text.contains _ old); simpl; no_faults Hf; rewrite ?Hrc; simpl;
      eexists; (split; [reflexivity|]); simpl; by rewrite ?Hf.
  - no_faults Hf. rewrite Hrc. simpl.
    eexists; (split; [reflexivity|]); simpl; by rewrite ?Hf.
  - no_faults Hf. rewrite Hrc. simpl.
    eexists; (split; [reflexivity|]); simpl; by rewrite ?Hf.
Qed.

(** X5. [create_alias] is idempotent.  When no operation fails and the
    shell start-up file is not a directory, the first call leaves a
    start-up file that defines an alias [stitchkit] and still begins with
    what it held before; a second call finds the alias and changes
    nothing. *)
Theorem create_alias_once (s : state) :
  faults s = [] →
  (∀ d, home s !! rc_name s ≠ Some (Dir d)) →
  ∃ s1 s2 text,
    create_alias s = (Return (), s1) ∧
    home s1 !! rc_name s = Some (File text) ∧
    Text.occurs "alias stitchkit=" text ∧
    (∀ old, home s !! rc_name s = Some (File old) →
            ∃ added, text = old +:+ added) ∧
    create_alias s1 = (Return (), s2) ∧
    home s2 = home s1.
Proof.
  intros Hf Hnd.
  destruct (create_alias_run s Hf) as (s1 & H1 & Hf1 & Ho1 & Hh1).
  destruct (create_alias_run s1 Hf1) as (s2 & H2 & Hf2 & Ho2 & Hh2).
  assert (rc_name s1 = rc_name s) as Hrc by (unfold rc_name; by rewrite Ho1).
  rewrite Hrc in Hh2.
  assert (∃ text, home s1 !! rc_name s = Some (File text) ∧
                  Text.contains "alias stitchkit=" text = true ∧
                  ∀ old, home s !! rc_name s = Some (File old) →
                         ∃ added, text = old +:+ added)
    as (text & Htext & Hknown & Hold).
  { rewrite Hh1. destruct (home s !! rc_name s) as [[old|d]|] eqn:E.
    - destruct (Text.contains "alias stitchkit=" old) eqn:Hc.
      + exists old. split_and!; try done.
        intros ? [= <-]. exists EmptyString. by rewrite string_app_nil_r.
      + exists (old +:+ alias_block). rewrite lookup_insert_eq.
        split_and!; try done.
        * apply alias_block_known.
        * intros ? [= <-]. by eexists.
    - by destruct (Hnd d).
    - exists alias_block. rewrite lookup_insert_eq. by split_and!. }
  exists s1, s2, text. split_and!; try done.
  - by apply contains_occurs.
  - by rewrite Hh2, Htext, Hknown.
Qed.

Lemma create_alias_once_witness :
  ∃ s1 s2 text,
    create_alias zsh_user = (Return (), s1) ∧
    home s1 !! rc_name zsh_user = Some (File text) ∧
    Text.occurs "alias stitchkit=" text ∧
    (∀ old, home zsh_user !! rc_name zsh_user = Some (File old) →
            ∃ added, text = old +:+ added) ∧
    create_alias s1 = (Return (), s2) ∧
    home s2 = home s1.
Proof.
  apply (create_alias_once zsh_user).
  - reflexivity.
  - intros d. vm_compute. intros H. discriminate H.
Defined.



(** ** The dependencies *)

(** X7. [install_dependencies] and what can leave it.  The script itself
    changes no file here and reads nothing from the user (what pip writes
    is not part of the model).  The existence test of the manifest stands
    before the [try]: an error that it raises leaves the function, with
    nothing else done.  Apart from that the result is a boolean, unless the
    user interrupts.  When the test finds no manifest the result is true
    after a warning, with no process started and no other operation tried.
    With a manifest and no failure it starts pip on the manifest and returns
    whether pip exited with code 0. *)
Theorem install_dependencies_outcomes (s : state) :
  (∀ r s', install_dependencies s = (r, s') →
           home s' = home s ∧ stdin s' = stdin s ∧
           (r = Raise KeyboardInterrupt ∨ (∃ b, r = Return b) ∨
            ∃ e, r = Raise e ∧ exists_ requirements_file s = (Raise e, s'))) ∧
  (∀ e, next_fault s = Some e → ignored_by_exists e = false →
        install_dependencies s = (Raise e, pop s)) ∧
  (next_fault s = None → stat requirements_file s = None →
   ∃ s', install_dependencies s = (Return true, s') ∧
         faults s' = tail (faults s) ∧ only_printed s s') ∧
  (is_Some (stat requirements_file s) → faults s = [] →
   ∃ s', install_dependencies s
         = (Return (pip_returncode (os s) =? 0), s') ∧
         Run (pip_install s) ∈ stdout s').
Proof.
  split_and!.
  - intros r s' (Ho & Hh & Hi & _ & _ & Hr)%install_dependencies_inv.
    split; [done|]. split; [done|].
    destruct Hr as [Hr | [Hr | (e & -> & Hn & Hign & ->)]]; [by left | by right; left |].
    right. right. exists e. split; [reflexivity|]. by apply exists_raises.
  - intros e Hn Hign. unfold install_dependencies. exec.
    by rewrite (exists_raises _ _ e).
  - intros Hn Hnone. unfold install_dependencies. exec.
    rewrite exists_ok by done. simpl.
    change (stat ["StitchKit"; "requirements.txt"] s)
      with (stat requirements_file s).
    rewrite Hnone, bool_decide_eq_false_2 by (by intros [? ?]). simpl.
    eexists. split; [reflexivity|]. split; [reflexivity|].
    intros e. simpl. rewrite elem_of_app, list_elem_of_singleton.
    intros [? | ->]; eauto.
  - intros Hsome Hf. unfold install_dependencies, subprocess, io. exec.
    rewrite exists_nil by done. simpl.
    change (stat ["StitchKit"; "requirements.txt"] s)
      with (stat requirements_file s).
    rewrite bool_decide_eq_true_2 by done. simpl. no_faults Hf.
    unfold pip_install.
    destruct (pip_returncode (os s) =? 0); simpl;
      (eexists; split; [reflexivity|]); simpl;
      rewrite !elem_of_app, !list_elem_of_singleton; tauto.
Qed.

Lemma install_dependencies_outcomes_witness :
  (∃ s', install_dependencies pip_failing = (Return false, s') ∧
         Run (pip_install pip_failing) ∈ stdout s') ∧
  install_dependencies unsearchable_install
  = (Raise OSError, pop unsearchable_install).
Proof.
  split.
  - apply (install_dependencies_outcomes pip_failing).
    + vm_compute. eauto.
    + reflexivity.
  - apply (install_dependencies_outcomes unsearchable_install); reflexivity.
Defined.

(** ** A backup under a name that is taken *)

(** X8. [backup_existing] never replaces what is found under the name of
    the backup.  For an installation that is a directory: when the name is
    free, the installation becomes the backup; when a directory has that
    name already, the installation is moved into it as its entry
    [StitchKit], next to what it holds, unless it has such an entry; in
    every other case nothing changes and no backup is reported. *)
Theorem backup_existing_never_replaces (s s' : state) (inst : gmap string node)
    (r : outcome (option string)) :
  home s !! "StitchKit" = Some (Dir inst) →
  backup_existing s = (r, s') →
  (r = Return (Some (backup_name s)) ∧ home s' !! "StitchKit" = None ∧
   (home s !! backup_name s = None ∧
    home s' !! backup_name s = Some (Dir inst)
    ∨ ∃ d, home s !! backup_name s = Some (Dir d) ∧
           d !! "StitchKit" = None ∧
           home s' !! backup_name s
           = Some (Dir (<["StitchKit" := Dir inst]> d))))
  ∨ ((r = Return None ∨ r = Raise KeyboardInterrupt) ∧ home s' = home s).
Proof.
  intros Hinst. destruct (backup_existing_cases s) as [out Hb].
  pose proof (backup_name_ne s) as Hne.
  destruct (next_fault s) as [e|].
  { rewrite Hb. intros H. simplify_eq. right. split; [|done].
    destruct e; simpl; auto. }
  unfold moved in Hb. rewrite Hinst in Hb.
  destruct (home s !! backup_name s) as [[c|d]|] eqn:Hbk.
  - rewrite Hb. intros H. simplify_eq. right. auto.
  - destruct (d !! "StitchKit") eqn:Hd; rewrite Hb; intros H; simplify_eq.
    + right. auto.
    + left. simpl. split; [done|].
      rewrite lookup_insert_ne, lookup_delete_eq, lookup_insert_eq by done.
      split; [done|]. right. by exists d.
  - rewrite Hb. intros H. simplify_eq. left. simpl. split; [done|].
    rewrite lookup_insert_ne, lookup_delete_eq, lookup_insert_eq by done.
    split; [done|]. by left.
Qed.

Lemma backup_existing_never_replaces_witness :
  let r := (backup_existing same_second).1 in
  let s' := (backup_existing same_second).2 in
  (r = Return (Some (backup_name same_second)) ∧
   home s' !! "StitchKit" = None ∧
   (home same_second !! backup_name same_second = None ∧
    home s' !! backup_name same_second
    = Some (Dir {[ ".env" := File complete_env ]})
    ∨ ∃ d, home same_second !! backup_name same_second = Some (Dir d) ∧
           d !! "StitchKit" = None ∧
           home s' !! backup_name same_second
           = Some (Dir (<["StitchKit" :=
                            Dir {[ ".env" := File complete_env ]}]> d))))
  ∨ ((r = Return None ∨ r = Raise KeyboardInterrupt) ∧
     home s' = home same_second).
Proof.
  apply (backup_existing_never_replaces same_second).
  - reflexivity.
  - by destruct (backup_existing same_second).
Defined.

(** ** The guided edit *)

Lemma quiet_refl (s : state) : quiet s s.
Proof.
  unfold quiet. split_and!; try done. exists []. by rewrite app_nil_r.
Qed.

Lemma quiet_trans (s1 s2 s3 : state) : quiet s1 s2 → quiet s2 s3 → quiet s1 s3.
Proof.
  intros (H1 & H2 & H3 & H4 & H5 & H6 & out & H7)
         (G1 & G2 & G3 & G4 & G5 & G6 & out' & G7).
  unfold quiet. split_and!; try congruence; [auto|].
  exists (out ++ out'). by rewrite G7, H7, app_assoc.
Qed.

Lemma quiet_echo (s : state) (e : event) :
  (∀ cmd, e ≠ Run cmd) → quiet s (set_stdout (stdout s ++ [e]) s).
Proof.
  intros He. unfold quiet. simpl. split_and!; try done; [|by eexists].
  intros cmd [H | H%list_elem_of_singleton]%elem_of_app; [done|].
  by destruct (He cmd).
Qed.

Lemma bind_assoc {A B C} (m : M A) (f : A → M B) (g : B → M C) (s : state) :
  bind (bind m f) g s = bind m (λ x, bind (f x) g) s.
Proof. unfold bind. by destruct (m s) as [[a|e] s1]. Qed.

Lemma bind_print {B} (text : string) (k : unit → M B) (s : state) :
  ∃ s1, (quiet s s1 ∧ stdin s1 = stdin s) ∧ bind (print text) k s = k () s1.
Proof.
  eexists. split; [|reflexivity]. split; [|done]. by apply quiet_echo.
Qed.

Lemma bind_input {B} (prompt line : string) (rest : list key)
    (k : string → M B) (s : state) :
  stdin s = Enter line :: rest →
  ∃ s1, (quiet s s1 ∧ stdin s1 = rest) ∧ bind (input prompt) k s = k line s1.
Proof.
  intros Hin. unfold bind, input. simpl. rewrite Hin.
  eexists. split; [|reflexivity]. split; [|done].
  unfold quiet. simpl. split_and!; try done; [|by eexists].
  intros cmd [H | H%list_elem_of_singleton]%elem_of_app; done.
Qed.

(** Run the prints at the head of a block. *)
Ltac run_prints :=
  repeat first
    [ rewrite bind_assoc
    | match goal with
      | |- context [bind (print ?t) ?k ?s] =>
          let s1 := fresh "s" in
          let Q := fresh "Q" in
          let E := fresh "E" in
          destruct (bind_print t k s) as (s1 & Q & E);
          rewrite E; clear E;
          try match goal with
              | Q0 : quiet ?s0 s ∧ stdin s = _ |- _ =>
                  assert (quiet s0 s1 ∧ stdin s1 = stdin s0) as Q'
                    by (destruct Q0 as [Q1 Q2], Q as [Q3 Q4];
                        split; [by eapply quiet_trans | congruence]);
                  clear Q Q0; rename Q' into Q; try clear s
              end
      end ].

Lemma guide_env_setup_opening (s : state) (line : string) (rest : list key) :
  stdin s = Enter line :: rest →
  ∃ s1, quiet s s1 ∧ stdin s1 = rest ∧
        guide_env_setup s =
        bind (try_except (edit_env "nano" >> ret true) is_FileNotFoundError
                (λ _, try_except (edit_env "vi" >> ret true)
                        is_FileNotFoundError
                        (λ _, print_error
                                "No text editor found. Please edit .env manually"
                              >> ret false)))
             (λ opened,
                if opened then
                  ok <- check_env_credentials ;;
                  modify (set_env_has_credentials ok) >>
                  if ok then print_success "Credentials configured successfully!"
                  else print_warning
                         "Some credentials may still need to be configured"
                else ret ()) s1.
Proof.
  intros Hin. unfold guide_env_setup. unfold print_header.
  run_prints. destruct Q0 as [Q0 I0].
  match goal with
  | |- context [bind (input ?p) ?k ?s] =>
      destruct (bind_input p line rest k s) as (s2 & [Q2 I2] & E);
      [congruence|]
  end.
  exists s2. split; [by eapply quiet_trans|]. split; [done|]. exact E.
Qed.

Lemma edit_env_eq (program : string) (s : state) :
  edit_env program s =
  match next_fault s with
  | Some e => (Raise e, pop s)
  | None =>
      (Return (),
       set_home (edited (editor (os s)) (home s))
         (set_stdout (stdout s ++ [Run [program; path_str env_file s]])
            (pop s)))
  end.
Proof.
  unfold edit_env, subprocess, io. exec. by destruct (next_fault s).
Qed.

Ltac editor_started Ho Hh :=
  unfold print_success, print_warning, print_status, print, modify; simpl;
  eexists; (split; [reflexivity|]); simpl;
  unfold vi_cmd, nano_cmd, path_str; simpl; rewrite ?Ho, ?Hh.

(** X9. The editors of [guide_env_setup].  After the user has pressed
    Enter, nano is started on the configuration file; vi is started only
    when nano is not found; when neither is found, an error is printed and
    the step returns with no file changed, no process started and the
    credentials flag as it was.  (After an editor has run, the existence
    test and the read of the credential check are the next two
    operations.) *)
Theorem guide_env_setup_editors (s : state) (line : string) (rest : list key)
    (later : list (option exn)) :
  stdin s = Enter line :: rest →
  (faults s = Some FileNotFoundError :: Some FileNotFoundError :: later →
   ∃ s', guide_env_setup s = (Return (), s') ∧
         home s' = home s ∧ faults s' = later ∧
         env_has_credentials s' = env_has_credentials s ∧
         ∀ cmd, Run cmd ∈ stdout s' → Run cmd ∈ stdout s) ∧
  (faults s = Some FileNotFoundError :: None :: None :: None :: later →
   ∃ s', guide_env_setup s = (Return (), s') ∧
         home s' = edited (editor (os s)) (home s) ∧
         Run (vi_cmd s) ∈ stdout s' ∧
         (Run (nano_cmd s) ∈ stdout s' → Run (nano_cmd s) ∈ stdout s)) ∧
  (faults s = None :: None :: None :: later →
   ∃ s', guide_env_setup s = (Return (), s') ∧
         home s' = edited (editor (os s)) (home s) ∧
         Run (nano_cmd s) ∈ stdout s' ∧
         (Run (vi_cmd s) ∈ stdout s' → Run (vi_cmd s) ∈ stdout s)).
Proof.
  intros Hin.
  destruct (guide_env_setup_opening s line rest Hin)
    as (s1 & (Hh & Hf & Ho & Hr & Hc & Hrun & out & Hout) & Hi & ->).
  assert (path_str env_file s1 = path_str env_file s) as Hp
    by (unfold path_str; by rewrite Ho).
  split_and!; intros Hfs; rewrite Hfs in Hf.
  - unfold bind, try_except. rewrite !edit_env_eq.
    unfold next_fault, pop. simpl. rewrite Hf. simpl.
    eexists. split; [reflexivity|]. simpl.
    split_and!; try done.
    intros cmd [H | H%list_elem_of_singleton]%elem_of_app; [auto | done].
  - unfold bind, try_except. rewrite !edit_env_eq.
    unfold next_fault, pop. simpl. rewrite Hf. simpl.
    rewrite check_env_credentials_eq. unfold next_fault, pop. simpl.
    destruct (stat env_file _) as [[content | d] |];
      [destruct (credentials_in content) | |]; editor_started Ho Hh;
      (split_and!; [reflexivity | set_solver |]);
      intros [[H | H%list_elem_of_singleton]%elem_of_app
             | H%list_elem_of_singleton]%elem_of_app;
      solve [auto | discriminate H].
  - unfold bind, try_except. rewrite !edit_env_eq.
    unfold next_fault, pop. simpl. rewrite Hf. simpl.
    rewrite check_env_credentials_eq. unfold next_fault, pop. simpl.
    destruct (stat env_file _) as [[content | d] |];
      [destruct (credentials_in content) | |]; editor_started Ho Hh;
      (split_and!; [reflexivity | set_solver |]);
      intros [[H | H%list_elem_of_singleton]%elem_of_app
             | H%list_elem_of_singleton]%elem_of_app;
      solve [auto | discriminate H].
Qed.

Lemma guide_env_setup_editors_witness :
  ∃ s', guide_env_setup no_editor = (Return (), s') ∧
        home s' = home no_editor ∧ faults s' = [] ∧
        env_has_credentials s' = env_has_credentials no_editor ∧
        ∀ cmd, Run cmd ∈ stdout s' → Run cmd ∈ stdout no_editor.
Proof.
  apply (guide_env_setup_editors no_editor EmptyString [] []);
    reflexivity.
Defined.

(** ** A backup followed by a restore *)

Lemma backup_existing_made (s : state) (n : node) :
  home s !! "StitchKit" = Some n → home s !! backup_name s = None →
  faults s = [] →
  ∃ out, backup_existing s =
         (Return (Some (backup_name s)),
          set_stdout (stdout s ++ out)
            (set_home (<[backup_name s := n]> (delete "StitchKit" (home s)))
               (pop s))).
Proof.
  intros Hi Hb Hf. destruct (backup_existing_cases s) as [out H].
  rewrite next_fault_nil in H by done.
  unfold moved in H. rewrite Hb, Hi in H. by exists out.
Qed.

(** The backup of this run is the latest one when no backup on the machine
    carries a later name. *)
Lemma latest_backup_of_new (s s1 : state) (n : node) :
  home s1 = <[backup_name s := n]> (delete "StitchKit" (home s)) →
  (∀ name, name ∈ glob backup_pattern (listdir s) →
           String.le name (backup_name s)) →
  latest_backup_of (listdir s1) = Some (backup_name s).
Proof.
  intros Hh Hold.
  assert (backup_name s ∈ glob backup_pattern (listdir s1)) as Hin.
  { apply elem_of_glob. split.
    - apply elem_of_listdir. rewrite Hh, lookup_insert_eq. eauto.
    - by exists (now (os s)). }
  destruct (latest_backup_of (listdir s1)) as [b|] eqn:Hl.
  2: { apply latest_backup_of_None in Hl. rewrite Hl in Hin.
       by apply elem_of_nil in Hin. }
  destruct (latest_backup_of_greatest _ _ Hl) as [Hb Hmax].
  f_equal. apply (anti_symm String.le); [|by apply Hmax].
  destruct (decide (b = backup_name s)) as [-> | Hne]; [done|].
  apply Hold. apply elem_of_glob in Hb as [Hb Hstamp].
  apply elem_of_glob. split; [|done].
  apply elem_of_listdir. apply elem_of_listdir in Hb.
  rewrite Hh, lookup_insert_ne in Hb by done.
  destruct Hb as [m Hm]. apply lookup_delete_Some in Hm as [_ Hm]. eauto.
Qed.

(** X10. A backup followed by a restore brings the configuration back.  On
    an installation with a configuration file, when the name of the new
    backup is free and no backup on the machine carries a later name, the
    user answers yes twice and no operation fails:
    [check_existing_installation] returns true, the old installation is
    found unchanged under the name of the backup, the new installation holds
    the configuration file with the same text and nothing else,
    [env_restored] is set and [env_has_credentials] is the result of the
    check on that text. *)
Theorem backup_restore_round_trip (s : state) (inst : gmap string node)
    (content a1 a2 : string) (rest : list key) :
  home s !! "StitchKit" = Some (Dir inst) →
  inst !! ".env" = Some (File content) →
  home s !! backup_name s = None →
  (∀ name, name ∈ glob backup_pattern (listdir s) →
           String.le name (backup_name s)) →
  stdin s = Enter a1 :: Enter a2 :: rest →
  Text.lower a1 = "y" → Text.lower a2 = "y" →
  faults s = [] →
  ∃ s', check_existing_installation s = (Return true, s') ∧
        home s' = <["StitchKit" := Dir {[".env" := File content]}]>
                    (<[backup_name s := Dir inst]> (home s)) ∧
        env_restored s' = true ∧
        env_has_credentials s' = credentials_in content ∧
        stdin s' = rest ∧ faults s' = [].
Proof.
  intros Hi He Hfree Hold Hin Hy1 Hy2 Hf.
  destruct (check_existing_installation_asked s a1 (Enter a2 :: rest))
    as (s0 & -> & Hh0 & Hf0 & Ho0 & Hi0 & _);
    [ by eauto | done | by apply next_fault_nil
    | rewrite pop_nil by done; by apply next_fault_nil |].
  rewrite (pop_nil s), (pop_nil s) in Hf0 by done.
  rewrite bool_decide_eq_true_2 by done.
  assert (backup_name s0 = backup_name s) as Hn
    by (unfold backup_name; by rewrite Ho0).
  destruct (backup_existing_made s0 (Dir inst)) as [out Hb];
    [congruence | congruence | congruence |].
  unfold bind at 1. unfold backup_then_restore, bind at 1.
  rewrite Hb, Hn, Hh0. clear Hb.
  set (s1 := set_stdout _ _).
  assert (home s1 = <[backup_name s := Dir inst]> (delete "StitchKit" (home s)))
    as Hh1 by reflexivity.
  destruct (restore_env_from_backup_accepted s1 (backup_name s) content a2 rest)
    as (s2 & Hr & Hh2 & Hr2 & Hc2 & Hf2 & Hi2 & _).
  - by eapply latest_backup_of_new.
  - rewrite stat_child, Hh1, lookup_insert_eq. exact He.
  - rewrite Hh1, lookup_insert_ne by apply not_eq_sym, backup_name_ne.
    apply lookup_delete_eq.
  - exact Hi0.
  - exact Hy2.
  - unfold s1. simpl. by rewrite Hf0, Hf.
  - unfold bind. rewrite Hr. simpl. exists s2. split; [reflexivity|].
    split_and!; try done.
    rewrite Hh2, Hh1. apply map_eq. intros k.
    destruct (decide (k = "StitchKit")) as [-> | Hk];
      [by rewrite !lookup_insert_eq|].
    rewrite !(lookup_insert_ne _ "StitchKit") by done.
    destruct (decide (k = backup_name s)) as [-> | Hk'];
      [by rewrite !lookup_insert_eq|].
    rewrite !lookup_insert_ne by done. by rewrite lookup_delete_ne.
Qed.

Lemma backup_restore_round_trip_witness :
  ∃ s', check_existing_installation returning_user = (Return true, s') ∧
        home s' = <["StitchKit" := Dir {[".env" := File complete_env]}]>
                    (<[backup_name returning_user :=
                         Dir {[".env" := File complete_env]}]>
                       (home returning_user)) ∧
        env_restored s' = true ∧
        env_has_credentials s' = credentials_in complete_env ∧
        stdin s' = [] ∧ faults s' = [].
Proof.
  apply (backup_restore_round_trip returning_user
           {[".env" := File complete_env]} complete_env "y" "Y" []).
  - reflexivity.
  - reflexivity.
  - reflexivity.
  - intros name H.
    assert (glob backup_pattern (listdir returning_user)
            = ["StitchKit.backup-20230101-000000"]) as E
      by (vm_compute; reflexivity).
    rewrite E in H. apply list_elem_of_singleton in H as ->.
    vm_compute. exact I.
  - reflexivity.
  - reflexivity.
  - reflexivity.
  - reflexivity.
Defined.

(** ** The question about a backup left unanswered *)

Lemma check_python_version_supported (s : state) :
  ¬ below_floor s → String.words (version (os s)) ≠ [] →
  ∃ out, check_python_version s
         = (Return true, set_stdout (stdout s ++ out) s).
Proof.
  unfold below_floor, check_python_version. intros Hb Hw. exec.
  destruct (Text.tuple_ltb _ _); [done|].
  destruct (String.words _); [done|]. simpl.
  eexists. reflexivity.
Qed.

Lemma check_existing_installation_unanswered (s : state) :
  is_Some (home s !! "StitchKit") →
  next_fault s = None → next_fault (pop s) = None →
  (∀ line rest, stdin s ≠ Enter line :: rest) →
  ∃ e s', check_existing_installation s = (Raise e, s') ∧
          home s' = home s ∧ faults s' = faults (pop (pop s)) ∧
          last (stdout s') = Some (Input backup_prompt) ∧
          (stdin s = [] → e = EOFError) ∧
          (∀ rest, stdin s = CtrlC :: rest → e = KeyboardInterrupt).
Proof.
  intros Hdir Hn1 Hn2 Hin. unfold check_existing_installation. exec.
  rewrite (exists_ok _ s Hn1). simpl.
  rewrite stat_install_dir, bool_decide_eq_true_2 by done. simpl.
  rewrite exists_ok by exact Hn2. simpl. frame.
  destruct (bool_decide (is_Some (stat env_file s))); simpl;
    destruct (stdin s) as [|[line|] rest] eqn:Hs; simpl;
    try (by destruct (Hin line rest));
    do 2 eexists; (split; [reflexivity|]); simpl;
    (split; [reflexivity|]); (split; [reflexivity|]);
    (split; [apply last_snoc|]); (split; [intros H | intros r H]);
    first [reflexivity | discriminate H].
Qed.

(** X11. Nothing is changed before the user has answered the question about
    a backup.  On a machine with an installation and a supported Python, on
    which the two existence tests that come before the question do not
    fail: when the input has ended or the user interrupts at that question,
    the process exits with code 1, no file has changed, no operation but the
    two tests was tried, and the last line printed is the message of
    [main]: the error for the end of the input, the cancellation for the
    interrupt. *)
Theorem backup_question_unanswered (s : state) :
  is_Some (home s !! "StitchKit") →
  ¬ below_floor s → String.words (version (os s)) ≠ [] →
  next_fault s = None → next_fault (pop s) = None →
  (∀ line rest, stdin s ≠ Enter line :: rest) →
  (main s).1 = 1 ∧ home (main s).2 = home s ∧
  faults (main s).2 = faults (pop (pop s)) ∧
  backup_asked (main s).2 ∧
  (stdin s = [] →
   last (stdout (main s).2)
   = Some (Echo (Text.nl +:+ "Installation error: " +:+ exn_text EOFError))) ∧
  (∀ rest, stdin s = CtrlC :: rest →
   last (stdout (main s).2)
   = Some (Echo (Text.nl +:+ Text.nl +:+ "Installation cancelled by user"))).
Proof.
  intros Hdir Hb Hw Hn1 Hn2 Hin. unfold main, run. exec.
  destruct (bool_decide ("--verbose" ∈ argv (os s))); simpl.
  all: match goal with
       | |- context [check_python_version ?x] =>
           destruct (check_python_version_supported x) as [out1 H1];
           [done..|]
       end.
  all: rewrite H1; simpl.
  all: match goal with
       | |- context [check_existing_installation ?x] =>
           destruct (check_existing_installation_unanswered x)
             as (e & s' & H2 & Hh & Hf & Hl & He & Hc); [done..|]
       end.
  all: rewrite H2; simpl in *.
  all: assert (Input backup_prompt ∈ stdout s') as Hasked
         by (by apply last_Some_elem_of).
  all: unfold backup_asked.
  all: destruct (stdin s) as [|[line|] rest] eqn:Hs;
         [ rewrite (He eq_refl)
         | by destruct (Hin line rest)
         | rewrite (Hc rest eq_refl) ]; simpl.
  all: split_and!; try done; try (apply elem_of_app; by left).
  all: try (intros _; apply last_snoc).
  all: intros r _; apply last_snoc.
Qed.

Lemma backup_question_unanswered_witness :
  (main interrupting_user).1 = 1 ∧
  home (main interrupting_user).2 = home interrupting_user ∧
  faults (main interrupting_user).2
  = faults (pop (pop interrupting_user)) ∧
  backup_asked (main interrupting_user).2 ∧
  (stdin interrupting_user = [] →
   last (stdout (main interrupting_user).2)
   = Some (Echo (Text.nl +:+ "Installation error: " +:+ exn_text EOFError))) ∧
  (∀ rest, stdin interrupting_user = CtrlC :: rest →
   last (stdout (main interrupting_user).2)
   = Some (Echo (Text.nl +:+ Text.nl +:+ "Installation cancelled by user"))).
Proof.
  apply (backup_question_unanswered interrupting_user).
  - vm_compute. eauto.
  - unfold below_floor. vm_compute. intros H. discriminate H.
  - vm_compute. intros H. discriminate H.
  - reflexivity.
  - reflexivity.
  - intros line rest H. discriminate H.
Defined.

(** ** The start of the target application *)

Ltac reported e :=
  exists e; (split; [done|]);
  apply elem_of_app; left; apply elem_of_app; right;
  apply list_elem_of_singleton; reflexivity.

(** X12. [launch] never stops the installer with an error.  It changes no
    file and reads nothing from the user, and it ends in one of three ways:
    the installation is a directory and the target application was the last
    thing started; or an exception of class [Exception] was met, the
    failure was reported and the manual next steps were printed; or the
    user interrupted, and then nothing was printed. *)
Theorem launch_falls_back (s s' : state) (r : outcome unit) :
  launch s = (r, s') →
  home s' = home s ∧ stdin s' = stdin s ∧
  ((r = Return () ∧ launched s' ∧ ∃ d, home s !! "StitchKit" = Some (Dir d))
   ∨ (r = Return () ∧ guided_manual s' ∧
      ∃ e, is_Exception e = true ∧ launch_failure e ∈ stdout s')
   ∨ (r = Raise KeyboardInterrupt ∧
      ∀ ev, ev ∈ stdout s' → ev ∈ stdout s ∨ ∃ w, ev = Chdir w)).
Proof.
  unfold launch, chdir_install_dir, subprocess, io, show_manual_next_steps,
    launched, guided_manual, launch_failure, print_error, print_status, print.
  exec. frame.
  repeat case_step; intros H; simplify_eq; simpl.
  all: split; [reflexivity|]; split; [reflexivity|].
  all: try (right; left; split; [reflexivity|];
            split; [by apply suffix_app_r|];
            first [ match goal with
                    | Hcls : is_Exception ?e = true |- _ => reported e
                    end
                  | reported NotADirectoryError
                  | reported FileNotFoundError ]).
  all: try (left; split; [reflexivity|]; split; [apply last_snoc|];
            rewrite stat_pop, stat_install_dir in Hst; eauto).
  all: right; right;
       match goal with e : exn |- _ => destruct e end;
       try discriminate Hcls; (split; [reflexivity|]); intros ev Hev.
  - by left.
  - apply elem_of_app in Hev as [Hev | Hev%list_elem_of_singleton]; eauto.
Qed.

Lemma launch_falls_back_witness :
  home (launch broken_launch).2 = home broken_launch ∧
  stdin (launch broken_launch).2 = stdin broken_launch ∧
  (((launch broken_launch).1 = Return () ∧ launched (launch broken_launch).2 ∧
    ∃ d, home broken_launch !! "StitchKit" = Some (Dir d))
   ∨ ((launch broken_launch).1 = Return () ∧
      guided_manual (launch broken_launch).2 ∧
      ∃ e, is_Exception e = true ∧
           launch_failure e ∈ stdout (launch broken_launch).2)
   ∨ ((launch broken_launch).1 = Raise KeyboardInterrupt ∧
      ∀ ev, ev ∈ stdout (launch broken_launch).2 →
            ev ∈ stdout broken_launch ∨ ∃ w, ev = Chdir w)).
Proof.
  apply (launch_falls_back broken_launch).
  by destruct (launch broken_launch).
Defined.
